(** * go-hipchat: the client of hipchat.go, embedded and verified

    The development follows [hipchat.go]: the connection manager
    ([connect], [authenticate]), the stanza dispatcher with its reconnect
    supervisor ([listen]) and the session facade ([NewClient], [Say], ...).

    The XMPP transport (package [xmpp]) is an external collaborator.  It is
    represented by a scripted connection: the list of results that the
    successive calls of [Next] will give, each stanza carrying what
    [Features], [Query] and [Body] decode from it.  Everything the client
    does to the outside (requests written on the session, dials, sleeps,
    goroutines started, values sent on its channels) is appended to a
    chronological trace. *)

From Stdlib Require Import ZArith Ascii String.
From stdpp Require Import base option list strings gmap.

(** ** Package [encoding/xml]: the part of a start element the client reads *)

Module xml.
Module Name.
Record t := mk { Space : string; Local : string }.
End Name.
Module Attr.
Record t := mk { Name : Name.t; Value : string }.
End Attr.
Module StartElement.
Record t := mk { Name : Name.t; Attr : list Attr.t }.
Definition zero : t := mk (Name.mk "" "") [].
End StartElement.
End xml.

(** ** Errors

    A Go [error] is either produced by the transport (dialing, reading) or
    made in hipchat.go with [errors.New].  [errors.New] allocates a fresh
    value on every call, which no error coming from the transport can be
    identical to; the two constructors keep that identity.  A nil [error]
    is [None]. *)

Inductive transport_error := NetError (text : string).

Inductive error :=
| Transport (e : transport_error)
| errors_New (text : string).

(** ** Package [time] *)

Module time.
Definition Duration := Z.
Definition Second : Duration := 1000000000%Z.
Definition Minute : Duration := (60 * Second)%Z.
End time.

(** ** Package [strings] *)

Module strings.
(** [strings.Contains s substr]: [substr] occurs somewhere in [s]. *)
Fixpoint Contains (s substr : string) : bool :=
  String.prefix substr s
  || match s with
     | EmptyString => false
     | String _ s' => Contains s' substr
     end.
End strings.

(** ** Package [xmpp]: the transport handle

    Package [xmpp] is imported by hipchat.go and is not part of it.  Its
    types and methods are modelled from section 6 of the specification
    (the capabilities required of the transport). *)

Module xmpp.

(** Modelled from the spec: the stream-features descriptor (STARTTLS offer,
    available mechanisms).  The pointee of [features.StartTLS] is never
    inspected by the client. *)
Definition tlsStartTLS := unit.

Record features := mkFeatures {
  StartTLS : option tlsStartTLS;
  Mechanisms : list string
}.

(** Modelled from the spec: the query payload, a list of
    {address, name, mentionName} items under the name of the query. *)
Module item.
Record t := mk { Jid : string; Name : string; MentionName : string }.
End item.

Record query := mkQuery {
  XMLName : xml.Name.t;
  Items : list item.t
}.

(** Modelled from the spec: the parsed stanza that a read yields (name,
    namespace, attributes, body), with the stream-features descriptor and
    the query payload that [Features], [Query] and [Body] extract while
    it is the current stanza. *)
Record stanza := mkStanza {
  element : xml.StartElement.t;
  st_features : features;
  st_query : query;
  st_body : string
}.

Definition no_stanza : stanza :=
  mkStanza xml.StartElement.zero (mkFeatures None [])
           (mkQuery (xml.Name.mk "" "") []) "".

(** Modelled from the spec: what one call of [Next] gives, a parsed
    stanza or a transport error. *)
Inductive read :=
| Elem (s : stanza)
| Fail (e : transport_error).

(** Modelled from the spec: [xmpp.Conn], a live connection, as the reads
    still to come and the current stanza.  A read on an exhausted script
    never returns (the peer is silent). *)
Record Conn := mkConn {
  incoming : list read;
  current : stanza
}.

(** Modelled from the spec: the requests the client writes on a
    connection, one constructor for each method of [xmpp.Conn] that
    hipchat.go calls to send ([DoStartTLS] is the method [StartTLS]). *)
Inductive call :=
| Stream (jid host : string)
| DoStartTLS
| UseTLS
| Auth (user pass resource : string)
| Presence (jid status : string)
| MUCPresence (to jid : string)
| MUCSend (to from body : string)
| Send (to from body : string)
| KeepAlive
| Discover (from to : string)
| Roster (from to : string).

End xmpp.

(** The namespace constants of package [xmpp] and its helper [ToMap]
    (which maps an attribute list into a name to value lookup) are not part
    of hipchat.go: they are parameters, and the client is verified for any
    value of them. *)
Class XmppPackage := {
  NsStream : string;
  NsTLS : string;
  NsJabberClient : string;
  NsDisco : string;
  NsIqRoster : string;
  ToMap : list xml.Attr.t → gmap string string
}.

(** ** The values of hipchat.go *)

Definition host : string := "chat.hipchat.com".
Definition conf : string := "conf.hipchat.com".

(** A channel made by [make(chan T)]; a nil channel is [None]. *)
Record chan := Chan { chan_id : nat }.

Module Message.
Record t := mk {
  ID : string;
  From_ : string;
  To_ : string;
  Body : string;
  Type_ : string
}.
End Message.

Module User.
Record t := mk { Id : string; Name : string; MentionName : string }.
End User.

Module Room.
Record t := mk { Id : string; Name : string }.
End Room.

Module Client.
Record t := mk {
  Username : string;
  Password : string;
  Resource : string;
  Id : string;
  (* private *)
  mentionNames : gmap string string;
  connection : option xmpp.Conn;
  receivedUsers : option chan;
  receivedRooms : option chan;
  receivedMessage : option chan;
  onConnect : option chan
}.

Definition set_connection (c : t) (conn : option xmpp.Conn) : t :=
  mk (Username c) (Password c) (Resource c) (Id c) (mentionNames c) conn
       (receivedUsers c) (receivedRooms c) (receivedMessage c) (onConnect c).
End Client.

(** ** The world around the client *)

Inductive goroutine :=
| go_listen                          (* go c.listen() *)
| go_onConnect (ch : option chan).   (* go func() { c.onConnect <- true }() *)

Inductive event :=
| EvDial (h : string)                                   (* xmpp.Dial *)
| EvCall (r : xmpp.call)                                (* a request on the session *)
| EvSleep (d : time.Duration)                           (* time.Sleep *)
| EvGo (g : goroutine)                                  (* a go statement *)
| EvSendRooms (ch : chan) (items : list (option Room.t))
| EvSendUsers (ch : chan) (items : list (option User.t))
| EvSendMessage (ch : chan) (m : Message.t).

(** [dials]: what the successive calls of [xmpp.Dial] return, as the pair
    (connection, err) of Go.  [next_chan]: the channel allocator. *)
Record world := mkWorld {
  dials : list (option xmpp.Conn * option transport_error);
  next_chan : nat;
  trace : list event
}.

Definition emit (e : event) (w : world) : world :=
  mkWorld (dials w) (next_chan w) (trace w ++ [e]).

Definition emits (es : list event) (w : world) : world :=
  mkWorld (dials w) (next_chan w) (trace w ++ es).

(** ** Computations

    A method of [*Client] runs on the client it points to and on the world.
    It returns, panics, blocks for ever (a read with nothing to come, a
    send on a nil channel), or is still running when the fuel given to an
    unbounded loop is used up. *)

Inductive panic_value :=
| PanicError (err : option error)    (* panic(err) *)
| NilDereference.                    (* a method called on a nil connection *)

Inductive outcome (A : Type) :=
| Ret (a : A) (c : Client.t) (w : world)
| Panicked (v : panic_value) (c : Client.t) (w : world)
| Blocked (c : Client.t) (w : world)
| OutOfFuel (c : Client.t) (w : world).
Arguments Ret {A}.
Arguments Panicked {A}.
Arguments Blocked {A}.
Arguments OutOfFuel {A}.

Definition M (A : Type) : Type := Client.t → world → outcome A.

Definition ret {A} (a : A) : M A := λ c w, Ret a c w.

Definition bind {A B} (m : M A) (k : A → M B) : M B := λ c w,
  match m c w with
  | Ret a c' w' => k a c' w'
  | Panicked v c' w' => Panicked v c' w'
  | Blocked c' w' => Blocked c' w'
  | OutOfFuel c' w' => OutOfFuel c' w'
  end.

Declare Scope go_scope.
Delimit Scope go_scope with go.
Notation "x <- m ;; k" := (bind m (λ x, k))
  (at level 100, m at next level, right associativity) : go_scope.
Notation "m ;;; k" := (bind m (λ _, k))
  (at level 100, right associativity) : go_scope.
Open Scope go_scope.

Definition this : M Client.t := λ c w, Ret c c w.
Definition log (e : event) : M unit := λ c w, Ret tt c (emit e w).
Definition panic {A} (v : panic_value) : M A := λ c w, Panicked v c w.
Definition block {A} : M A := λ c w, Blocked c w.
Definition out_of_fuel {A} : M A := λ c w, OutOfFuel c w.

(** ** The transport, as the client calls it *)

(** Modelled from the spec: a method of [c.connection] that sends a
    request ([Stream], [StartTLS], [UseTLS], [Auth], [Presence], ...); the
    request is written.  On a nil connection the call dereferences nil. *)
Definition request (r : xmpp.call) : M unit := λ c w,
  match Client.connection c with
  | None => Panicked NilDereference c w
  | Some _ => Ret tt c (emit (EvCall r) w)
  end.

(** Modelled from the spec: [c.connection.Next()] reads the next parsed
    stanza and gives its start element, or a transport error. *)
Definition Next : M (xml.StartElement.t * option error) := λ c w,
  match Client.connection c with
  | None => Panicked NilDereference c w
  | Some conn =>
    match xmpp.incoming conn with
    | [] => Blocked c w
    | xmpp.Elem s :: rest =>
      Ret (xmpp.element s, None)
          (Client.set_connection c (Some (xmpp.mkConn rest s))) w
    | xmpp.Fail e :: rest =>
      Ret (xml.StartElement.zero, Some (Transport e))
          (Client.set_connection c (Some (xmpp.mkConn rest (xmpp.current conn)))) w
    end
  end.

(** Modelled from the spec: [Features], [Query] and [Body] give the
    stream-features descriptor, the query payload and the message body of
    the current stanza. *)
Definition decode {A} (f : xmpp.stanza → A) : M A := λ c w,
  match Client.connection c with
  | None => Panicked NilDereference c w
  | Some conn => Ret (f (xmpp.current conn)) c w
  end.

Definition Features : M xmpp.features := decode xmpp.st_features.
Definition Query : M xmpp.query := decode xmpp.st_query.
Definition Body : M string := decode xmpp.st_body.

(** Modelled from the spec: [xmpp.Dial(host)] opens a connection to the
    named host; it gives the next dial result of the world. *)
Definition Dial (h : string) : M (option xmpp.Conn * option error) := λ c w,
  match dials w with
  | [] => Blocked c (emit (EvDial h) w)
  | (conn, err) :: rest =>
    Ret (conn, Transport <$> err) c
        (emit (EvDial h) (mkWorld rest (next_chan w) (trace w)))
  end.

(** [c.connection = connection] *)
Definition assign_connection (connection : option xmpp.Conn) : M unit := λ c w,
  Ret tt (Client.set_connection c connection) w.

Definition Sleep (d : time.Duration) : M unit := log (EvSleep d).

Definition go (g : goroutine) : M unit := log (EvGo g).

(** [ch <- v] on an unbuffered channel: the value is handed over; a send
    on a nil channel blocks for ever. *)
Definition send {V} (ev : chan → V → event) (ch : option chan) (v : V) : M unit :=
  match ch with
  | None => block
  | Some ch => log (ev ch v)
  end.

(** [make(chan T)] *)
Definition make_chan (w : world) : option chan * world :=
  (Some (Chan (next_chan w)), mkWorld (dials w) (S (next_chan w)) (trace w)).

(** [m[k]] on a [map[string]string]: the zero value when [k] is absent. *)
Definition index (m : gmap string string) (k : string) : string :=
  default "" (m !! k).

(** The key of the two [switch] statements on an element. *)
Definition switch_key (element : xml.StartElement.t) : string :=
  xml.Name.Local (xml.StartElement.Name element)
  +:+ xml.Name.Space (xml.StartElement.Name element).

(** ** hipchat.go *)

Section Hipchat.
Context `{XmppPackage}.

(** [for _, m := range features.Mechanisms] of [authenticate] *)
Fixpoint submit_plain (mechanisms : list string) : M unit :=
  match mechanisms with
  | [] => ret tt
  | m :: rest =>
    (if String.eqb m "PLAIN"
     then c <- this ;;
          request (xmpp.Auth (Client.Username c) (Client.Password c) (Client.Resource c))
     else ret tt) ;;;
    submit_plain rest
  end.

(** [for _, attr := range element.Attr] of [authenticate]: [true] when the
    loop returns nil from inside. *)
Fixpoint result_attr (attrs : list xml.Attr.t) : bool :=
  match attrs with
  | [] => false
  | attr :: rest =>
    if String.eqb (xml.Name.Local (xml.Attr.Name attr)) "type"
       && String.eqb (xml.Attr.Value attr) "result"
    then true
    else result_attr rest
  end.

(** The [for] loop of [authenticate]; every round reads one element. *)
Fixpoint authenticate_loop (fuel : nat) : M (option error) :=
  match fuel with
  | O => out_of_fuel
  | S fuel =>
    r <- Next ;;
    let '(element, err) := r in
    match err with
    | Some e => ret (Some e)
    | None =>
      let key := switch_key element in
      if String.eqb key ("stream" +:+ NsStream) then
        features <- Features ;;
        match xmpp.StartTLS features with
        | Some _ => request xmpp.DoStartTLS
        | None => submit_plain (xmpp.Mechanisms features)
        end ;;;
        authenticate_loop fuel
      else if String.eqb key ("proceed" +:+ NsTLS) then
        request xmpp.UseTLS ;;;
        c <- this ;;
        request (xmpp.Stream (Client.Id c) host) ;;;
        authenticate_loop fuel
      else if String.eqb key ("iq" +:+ NsJabberClient) then
        if result_attr (xml.StartElement.Attr element)
        then ret None (* authenticated *)
        else ret (Some (errors_New "could not authenticate"))
      else authenticate_loop fuel
    end
  end.

(** The number of reads the connection still has to give. *)
Definition pending (c : Client.t) : nat :=
  match Client.connection c with
  | None => O
  | Some conn => length (xmpp.incoming conn)
  end.

(** [authenticate]: every round of its loop consumes a read, so one round
    more than the reads to come is all the loop can run. *)
Definition authenticate : M (option error) :=
  c <- this ;;
  request (xmpp.Stream (Client.Id c) host) ;;;
  authenticate_loop (S (pending c)).

Definition connect : M (option error) :=
  r <- Dial host ;;
  let '(connection, err) := r in
  assign_connection connection ;;;
  match err with
  | Some e => ret (Some e)
  | None =>
    err <- authenticate ;;
    match err with
    | Some e => ret (Some e)
    | None =>
      go go_listen ;;;
      c <- this ;;
      go (go_onConnect (Client.onConnect c)) ;;;
      ret None
    end
  end.

Definition NewClient (user pass resource : string) (w : world)
  : outcome (option Client.t * option error) :=
  let mentionNames : gmap string string := ∅ in
  let '(receivedUsers, w) := make_chan w in
  let '(receivedRooms, w) := make_chan w in
  let '(receivedMessage, w) := make_chan w in
  let '(onConnect, w) := make_chan w in
  let c := Client.mk user pass resource (user +:+ "@" +:+ host)
             mentionNames None
             receivedUsers receivedRooms receivedMessage onConnect in
  (err <- connect ;;
   c <- this ;;
   ret (Some c, err)) c w.

Definition Status (s : string) : M unit :=
  c <- this ;; request (xmpp.Presence (Client.Id c) s).

Definition Join (roomId resource : string) : M unit :=
  c <- this ;;
  request (xmpp.MUCPresence (roomId +:+ "/" +:+ resource) (Client.Id c)).

Definition Say (to name body : string) : M unit :=
  c <- this ;;
  if strings.Contains to conf
  then request (xmpp.MUCSend to (Client.Id c +:+ "/" +:+ name) body)
  else request (xmpp.Send to (Client.Id c +:+ "/" +:+ name) body).

Definition requestRooms : M unit :=
  c <- this ;; request (xmpp.Discover (Client.Id c) conf).

Definition requestUsers : M unit :=
  c <- this ;; request (xmpp.Roster (Client.Id c) host).

(** [items := make([]*Room, len(query.Items))] followed by
    [for i, item := range query.Items { items[i] = &Room{...} }] *)
Fixpoint fill_rooms (i : nat) (src : list xmpp.item.t)
    (items : list (option Room.t)) : list (option Room.t) :=
  match src with
  | [] => items
  | item :: rest =>
    fill_rooms (S i) rest
      (<[i := Some (Room.mk (xmpp.item.Jid item) (xmpp.item.Name item))]> items)
  end.

Definition rooms_of (src : list xmpp.item.t) : list (option Room.t) :=
  fill_rooms O src (replicate (length src) None).

Fixpoint fill_users (i : nat) (src : list xmpp.item.t)
    (items : list (option User.t)) : list (option User.t) :=
  match src with
  | [] => items
  | item :: rest =>
    fill_users (S i) rest
      (<[i := Some (User.mk (xmpp.item.Jid item) (xmpp.item.Name item)
                            (xmpp.item.MentionName item))]> items)
  end.

Definition users_of (src : list xmpp.item.t) : list (option User.t) :=
  fill_users O src (replicate (length src) None).

(** The reconnect block of [listen].  [for i := 1; i < 11; i++] runs over
    [seqZ 1 10] and [for m := 0; m < 5; m++] over [seqZ 0 5]; a loop gives
    the last value of [err] and whether it left by [goto Reconnected]. *)
Fixpoint inner_attempts (tries : list Z) (err : option error)
    : M (option error * bool) :=
  match tries with
  | [] => ret (err, false)
  | i :: rest =>
    Sleep (i * time.Second)%Z ;;;
    err <- connect ;;
    match err with
    | Some _ => ret (err, true) (* goto Reconnected *)
    | None => inner_attempts rest err
    end
  end.

Fixpoint outer_rounds (ms : list Z) (err : option error)
    : M (option error * bool) :=
  match ms with
  | [] => ret (err, false)
  | m :: rest =>
    r <- inner_attempts (seqZ 1%Z 10%Z) err ;;
    let '(err, reconnected) := r in
    if reconnected : bool then ret (err, true)
    else Sleep (m * time.Minute)%Z ;;; outer_rounds rest err
  end.

(** From [if err != nil] to the label [Reconnected]: returns when the label
    is reached, so that the loop of [listen] continues. *)
Definition reconnect (err : option error) : M unit :=
  r <- outer_rounds (seqZ 0%Z 5%Z) err ;;
  let '(err, reconnected) := r in
  if reconnected : bool then ret tt
  else panic (PanicError err).

(** One round of the [for] loop of [listen]. *)
Definition listen_round : M unit :=
  r <- Next ;;
  let '(element, err) := r in
  match err with
  | Some _ => reconnect err
  | None =>
    let key := switch_key element in
    if String.eqb key ("iq" +:+ NsJabberClient) then (* rooms and rosters *)
      query <- Query ;;
      let space := xml.Name.Space (xmpp.XMLName query) in
      if String.eqb space NsDisco then
        let items := rooms_of (xmpp.Items query) in
        c <- this ;;
        send EvSendRooms (Client.receivedRooms c) items
      else if String.eqb space NsIqRoster then
        let items := users_of (xmpp.Items query) in
        c <- this ;;
        send EvSendUsers (Client.receivedUsers c) items
      else ret tt
    else if String.eqb key ("presence" +:+ NsJabberClient) then ret tt
    else if String.eqb key ("message" +:+ NsJabberClient) then
      let attr := ToMap (xml.StartElement.Attr element) in
      if negb (String.eqb (index attr "type") "groupchat")
         && negb (String.eqb (index attr "type") "chat")
      then ret tt (* continue *)
      else
        (* empty body indicates a toggle in typing status *)
        body <- Body ;;
        if Nat.eqb (String.length body) O
        then ret tt (* continue *)
        else
          c <- this ;;
          send EvSendMessage (Client.receivedMessage c)
               (Message.mk (index attr "mid") (index attr "from")
                           (index attr "to") body (index attr "type"))
    else ret tt
  end.

(** [listen]: the loop never ends by itself; [fuel] bounds the rounds
    that are observed. *)
Fixpoint listen (fuel : nat) : M Empty_set :=
  match fuel with
  | O => out_of_fuel
  | S fuel => listen_round ;;; listen fuel
  end.

End Hipchat.

(** ** What a computation leaves behind *)

Definition final_client {A} (o : outcome A) : Client.t :=
  match o with
  | Ret _ c _ | Panicked _ c _ | Blocked c _ | OutOfFuel c _ => c
  end.

(** Everything of a client but its session. *)
Definition identity (c : Client.t) : Client.t := Client.set_connection c None.

(** A computation that may replace the session and nothing else. *)
Definition keeps_identity {A} (m : M A) : Prop :=
  ∀ c w, identity (final_client (m c w)) = identity c.

(** What [authenticate] returns once the read [r] ends its loop. *)
Definition verdict_of (r : xmpp.read) : option error :=
  match r with
  | xmpp.Fail e => Some (Transport e)
  | xmpp.Elem st =>
    if result_attr (xml.StartElement.Attr (xmpp.element st)) then None
    else Some (errors_New "could not authenticate")
  end.

(** The sleeps of a trace, in order, and its dials. *)
Definition sleeps (tr : list event) : list time.Duration :=
  omap (λ e, match e with EvSleep d => Some d | _ => None end) tr.

Definition dialed (tr : list event) : list string :=
  omap (λ e, match e with EvDial h => Some h | _ => None end) tr.

(** ** The words of the specification *)

(** An element that carries the attribute type=result. *)
Definition carries_type_result (element : xml.StartElement.t) : Prop :=
  ∃ attr, attr ∈ xml.StartElement.Attr element
          ∧ xml.Name.Local (xml.Attr.Name attr) = "type"
          ∧ xml.Attr.Value attr = "result".

(** The Room of a discovered item: its address and its label; the User of
    a roster item: its address, name and mention name. *)
Definition room_of_item (item : xmpp.item.t) : option Room.t :=
  Some (Room.mk (xmpp.item.Jid item) (xmpp.item.Name item)).

Definition user_of_item (item : xmpp.item.t) : option User.t :=
  Some (User.mk (xmpp.item.Jid item) (xmpp.item.Name item)
                (xmpp.item.MentionName item)).

(** A destination is an address [local@domain/resource], where the local
    part and the resource are optional.  It is within the room-service
    domain when its domain part is [conf]. *)
Fixpoint bare_address (s : string) : string :=
  match s with
  | EmptyString => EmptyString
  | String a s' => if Ascii.eqb a "/"%char then EmptyString else String a (bare_address s')
  end.

Fixpoint after_at (s : string) : option string :=
  match s with
  | EmptyString => None
  | String a s' => if Ascii.eqb a "@"%char then Some s' else after_at s'
  end.

Definition domain_part (address : string) : string :=
  let bare := bare_address address in
  default bare (after_at bare).

Definition in_room_service_domain (destination : string) : bool :=
  String.eqb (domain_part destination) conf.

(** ** A transport package and sessions to run the client on *)

(** An attribute list as a lookup by local name. *)
Definition attrs_by_local_name (attrs : list xml.Attr.t) : gmap string string :=
  foldl (λ m a, <[xml.Name.Local (xml.Attr.Name a) := xml.Attr.Value a]> m) ∅ attrs.

(** The namespaces XMPP gives to the elements the client looks at. *)
Definition xmpp_standard : XmppPackage := {|
  NsStream := "http://etherx.jabber.org/streams";
  NsTLS := "urn:ietf:params:xml:ns:xmpp-tls";
  NsJabberClient := "jabber:client";
  NsDisco := "http://jabber.org/protocol/disco#items";
  NsIqRoster := "jabber:iq:roster";
  ToMap := attrs_by_local_name
|}.

Definition attribute (name value : string) : xml.Attr.t :=
  xml.Attr.mk (xml.Name.mk "" name) value.

Definition bare_stanza (space local : string) (attrs : list xml.Attr.t) : xmpp.stanza :=
  xmpp.mkStanza (xml.StartElement.mk (xml.Name.mk space local) attrs)
    (xmpp.mkFeatures None []) (xmpp.mkQuery (xml.Name.mk "" "") []) "".

Definition features_stanza (tls : option xmpp.tlsStartTLS) (mechanisms : list string)
  : xmpp.stanza :=
  xmpp.mkStanza
    (xml.StartElement.mk (xml.Name.mk "http://etherx.jabber.org/streams" "stream") [])
    (xmpp.mkFeatures tls mechanisms) (xmpp.mkQuery (xml.Name.mk "" "") []) "".

Definition proceed_stanza : xmpp.stanza :=
  bare_stanza "urn:ietf:params:xml:ns:xmpp-tls" "proceed" [].

Definition iq_stanza (attrs : list xml.Attr.t) : xmpp.stanza :=
  bare_stanza "jabber:client" "iq" attrs.

Definition query_stanza (space : string) (items : list xmpp.item.t) : xmpp.stanza :=
  xmpp.mkStanza
    (xml.StartElement.mk (xml.Name.mk "jabber:client" "iq") [attribute "type" "result"])
    (xmpp.mkFeatures None []) (xmpp.mkQuery (xml.Name.mk space "query") items) "".

Definition message_stanza (attrs : list xml.Attr.t) (body : string) : xmpp.stanza :=
  xmpp.mkStanza (xml.StartElement.mk (xml.Name.mk "jabber:client" "message") attrs)
    (xmpp.mkFeatures None []) (xmpp.mkQuery (xml.Name.mk "" "") []) body.

Definition session (reads : list xmpp.read) : xmpp.Conn :=
  xmpp.mkConn reads xmpp.no_stanza.

(** A session on which the server offers STARTTLS, proceeds, offers PLAIN
    and accepts the credentials. *)
Definition accepting_session : xmpp.Conn :=
  session [xmpp.Elem (features_stanza (Some tt) ["PLAIN"]);
           xmpp.Elem proceed_stanza;
           xmpp.Elem (features_stanza None ["X-HIPCHAT"; "PLAIN"]);
           xmpp.Elem (bare_stanza "urn:ietf:params:xml:ns:xmpp-sasl" "success" []);
           xmpp.Elem (iq_stanza [attribute "id" "bind"; attribute "type" "result"])].

(** bob, connected on a session whose reads are [reads]. *)
Definition bob (reads : list xmpp.read) : Client.t :=
  Client.mk "bob" "pw" "desk" "bob@chat.hipchat.com" ∅ (Some (session reads))
    (Some (Chan 0)) (Some (Chan 1)) (Some (Chan 2)) (Some (Chan 3)).

Definition world_of (ds : list (option xmpp.Conn * option transport_error)) : world :=
  mkWorld ds 4 [].

Definition connection_reset : transport_error := NetError "connection reset by peer".
Definition connection_refused : transport_error := NetError "connection refused".

(** ** The keep-alive loop of hipchat.go *)

(** [KeepAlive]: [for _ = range time.Tick(60 * time.Second)] sends one
    frame for every tick.  The ticker never stops; [ticks] is the number of
    ticks received while the loop is observed. *)
Fixpoint KeepAlive (ticks : nat) : M Empty_set :=
  match ticks with
  | O => out_of_fuel
  | S ticks => request xmpp.KeepAlive ;;; KeepAlive ticks
  end.

(** ** Reading a trace *)

Definition final_world {A} (o : outcome A) : world :=
  match o with
  | Ret _ _ w | Panicked _ _ w | Blocked _ w | OutOfFuel _ w => w
  end.

Definition is_call (e : event) : bool :=
  match e with EvCall _ => true | _ => false end.

Definition is_credentials (e : event) : bool :=
  match e with EvCall (xmpp.Auth _ _ _) => true | _ => false end.

Definition is_send (e : event) : bool :=
  match e with
  | EvSendRooms _ _ | EvSendUsers _ _ | EvSendMessage _ _ => true
  | _ => false
  end.

(** Neither a sleep nor a dial. *)
Definition is_quiet (e : event) : bool :=
  match e with EvSleep _ | EvDial _ => false | _ => true end.

(** A computation that, however it ends, has only appended events that
    satisfy [P] to the trace. *)
Definition appends (P : event → bool) {A} (m : M A) : Prop :=
  ∀ c w, ∃ es, trace (final_world (m c w)) = trace w ++ es
               ∧ Forall (λ e, P e = true) es.


(** The sleeps of the rounds [ms] of the supervisor when no attempt ends
    them: one to ten seconds, then [m] minutes, for every round. *)
Definition backoff_of (ms : list Z) : list time.Duration :=
  mjoin ((λ m, ((λ i, i * time.Second)%Z <$> seqZ 1 10) ++ [(m * time.Minute)%Z])
         <$> ms).

Definition backoff_schedule : list time.Duration := backoff_of (seqZ 0 5).

(** * Properties *)

(** ** Running a computation step by step *)

Lemma bind_Ret {A B} (m : M A) (k : A → M B) c w a c' w' :
  m c w = Ret a c' w' → bind m k c w = k a c' w'.
Proof. intros E. unfold bind. now rewrite E. Qed.

Lemma Next_elem c conn st rest w :
  Client.connection c = Some conn →
  xmpp.incoming conn = xmpp.Elem st :: rest →
  Next c w = Ret (xmpp.element st, None)
                 (Client.set_connection c (Some (xmpp.mkConn rest st))) w.
Proof. intros Hc Hi. unfold Next. now rewrite Hc, Hi. Qed.

Lemma Next_fail c conn e rest w :
  Client.connection c = Some conn →
  xmpp.incoming conn = xmpp.Fail e :: rest →
  Next c w = Ret (xml.StartElement.zero, Some (Transport e))
                 (Client.set_connection c
                    (Some (xmpp.mkConn rest (xmpp.current conn)))) w.
Proof. intros Hc Hi. unfold Next. now rewrite Hc, Hi. Qed.

Lemma request_live r c conn w :
  Client.connection c = Some conn →
  request r c w = Ret tt c (emit (EvCall r) w).
Proof. intros Hc. unfold request. now rewrite Hc. Qed.

Lemma decode_live {A} (f : xmpp.stanza → A) c conn w :
  Client.connection c = Some conn →
  decode f c w = Ret (f (xmpp.current conn)) c w.
Proof. intros Hc. unfold decode. now rewrite Hc. Qed.

(** The cases of a [switch] on an element exclude each other, whatever
    the namespaces are: their keys start with different letters. *)
Lemma key_message_iq x y : String.eqb ("message" +:+ x) ("iq" +:+ y) = false.
Proof. reflexivity. Qed.

Lemma key_message_presence x y :
  String.eqb ("message" +:+ x) ("presence" +:+ y) = false.
Proof. reflexivity. Qed.


Lemma key_iq_stream x y : String.eqb ("iq" +:+ x) ("stream" +:+ y) = false.
Proof. reflexivity. Qed.

Lemma key_iq_proceed x y : String.eqb ("iq" +:+ x) ("proceed" +:+ y) = false.
Proof. reflexivity. Qed.

(** ** The slices built by the dispatcher *)

Lemma fill_rooms_spec src : ∀ done todo,
  fill_rooms (length done) src (done ++ replicate (length src) None ++ todo)
  = done ++ (room_of_item <$> src) ++ todo.
Proof.
  induction src as [|item rest IH]; intros done todo; [reflexivity|].
  cbn [fill_rooms length replicate fmap list_fmap app].
  replace (length done) with (length done + 0)%nat at 2 by lia.
  rewrite insert_app_r. cbn [insert list_insert app].
  specialize (IH (done ++ [room_of_item item]) todo).
  rewrite length_app, Nat.add_1_r, <- !app_assoc in IH. exact IH.
Qed.

Lemma rooms_of_map src : rooms_of src = room_of_item <$> src.
Proof.
  unfold rooms_of.
  pose proof (fill_rooms_spec src [] []) as E.
  cbn [length app] in E. now rewrite !app_nil_r in E.
Qed.

Lemma fill_users_spec src : ∀ done todo,
  fill_users (length done) src (done ++ replicate (length src) None ++ todo)
  = done ++ (user_of_item <$> src) ++ todo.
Proof.
  induction src as [|item rest IH]; intros done todo; [reflexivity|].
  cbn [fill_users length replicate fmap list_fmap app].
  replace (length done) with (length done + 0)%nat at 2 by lia.
  rewrite insert_app_r. cbn [insert list_insert app].
  specialize (IH (done ++ [user_of_item item]) todo).
  rewrite length_app, Nat.add_1_r, <- !app_assoc in IH. exact IH.
Qed.

Lemma users_of_map src : users_of src = user_of_item <$> src.
Proof.
  unfold users_of.
  pose proof (fill_users_spec src [] []) as E.
  cbn [length app] in E. now rewrite !app_nil_r in E.
Qed.

Section Dispatcher.
Context `{XmppPackage}.

(** C5. A message stanza is delivered on the messages channel if and only
    if its type attribute is [chat] or [groupchat] and its body is not
    empty: then the round sends exactly one Message, whose Type, From, To
    and Body (and ID) are the stanza's; otherwise the round sends nothing. *)
Theorem message_delivered_iff_chat_with_body c conn st rest ch w :
  Client.connection c = Some conn →
  xmpp.incoming conn = xmpp.Elem st :: rest →
  switch_key (xmpp.element st) = "message" +:+ NsJabberClient →
  Client.receivedMessage c = Some ch →
  let attr := ToMap (xml.StartElement.Attr (xmpp.element st)) in
  let c' := Client.set_connection c (Some (xmpp.mkConn rest st)) in
  let m := Message.mk (index attr "mid") (index attr "from") (index attr "to")
                      (xmpp.st_body st) (index attr "type") in
  let passes := (index attr "type" = "chat" ∨ index attr "type" = "groupchat")
                ∧ xmpp.st_body st ≠ "" in
  (passes → listen_round c w = Ret tt c' (emit (EvSendMessage ch m) w))
  ∧ (¬ passes → listen_round c w = Ret tt c' w).
Proof.
  intros Hc Hi Hk Hch attr c' m passes.
  unfold listen_round.
  rewrite (bind_Ret _ _ _ _ _ _ _ (Next_elem _ _ _ _ w Hc Hi)).
  fold c'. cbv beta iota zeta. rewrite Hk.
  rewrite key_message_iq, key_message_presence, String.eqb_refl.
  cbv iota. fold attr.
  assert (Hc2 : Client.connection c' = Some (xmpp.mkConn rest st)) by reflexivity.
  assert (Hch2 : Client.receivedMessage c' = Some ch) by exact Hch.
  unfold passes.
  destruct (String.eqb_spec (index attr "type") "groupchat") as [Hg|Hg];
    destruct (String.eqb_spec (index attr "type") "chat") as [Ht|Ht];
    cbn [negb andb];
    try (rewrite Hg in Ht; discriminate Ht).
  3: { split; [intros [[?|?] _]; contradiction | reflexivity]. }
  all: unfold Body; rewrite (bind_Ret _ _ _ _ _ _ _ (decode_live _ _ _ w Hc2));
    cbn [xmpp.current];
    destruct (Nat.eqb (String.length (xmpp.st_body st)) 0) eqn:Hlen.
  all: split; intros Hp.
  all: try reflexivity.
  all: try (destruct Hp as [_ Hne]; exfalso; apply Hne;
            now destruct (xmpp.st_body st)).
  all: try (unfold bind, this, send; now rewrite Hch2).
  all: exfalso; apply Hp; split; [tauto|]; intros Hb; now rewrite Hb in Hlen.
Qed.

(** C6. A room-discovery reply with N items makes the round send exactly
    one slice on the rooms-result channel; the slice has N entries, none of
    them nil, and its i-th Room has the address of the i-th item as Id and
    its label as Name. *)
Theorem rooms_delivered_once_in_order c conn st rest ch w :
  Client.connection c = Some conn →
  xmpp.incoming conn = xmpp.Elem st :: rest →
  switch_key (xmpp.element st) = "iq" +:+ NsJabberClient →
  xml.Name.Space (xmpp.XMLName (xmpp.st_query st)) = NsDisco →
  Client.receivedRooms c = Some ch →
  ∃ rooms : list (option Room.t),
    listen_round c w
    = Ret tt (Client.set_connection c (Some (xmpp.mkConn rest st)))
          (emit (EvSendRooms ch rooms) w)
    ∧ length rooms = length (xmpp.Items (xmpp.st_query st))
    ∧ ∀ (i : nat) item,
        xmpp.Items (xmpp.st_query st) !! i = Some item →
        rooms !! i = Some (Some (Room.mk (xmpp.item.Jid item) (xmpp.item.Name item))).
Proof.
  intros Hc Hi Hk Hq Hch.
  exists (rooms_of (xmpp.Items (xmpp.st_query st))). split; [|split].
  - unfold listen_round.
    rewrite (bind_Ret _ _ _ _ _ _ _ (Next_elem _ _ _ _ w Hc Hi)).
    cbv beta iota zeta. rewrite Hk, String.eqb_refl.
    set (c' := Client.set_connection c _).
    assert (Hc2 : Client.connection c' = Some (xmpp.mkConn rest st)) by reflexivity.
    unfold Query. rewrite (bind_Ret _ _ _ _ _ _ _ (decode_live _ _ _ w Hc2)).
    cbn [xmpp.current]. rewrite Hq, String.eqb_refl.
    unfold bind, this, send. change (Client.receivedRooms c') with (Client.receivedRooms c).
    now rewrite Hch.
  - now rewrite rooms_of_map, length_fmap.
  - intros i item Hitem. rewrite rooms_of_map, list_lookup_fmap, Hitem. reflexivity.
Qed.

(** C7. A roster reply with N items makes the round send exactly one slice
    on the users-result channel; the slice has N entries, none of them nil,
    and its i-th User has the jid, name and mention name of the i-th item.
    (The namespaces of the two queries differ, as the constant cases of one
    [switch] must.) *)
Theorem users_delivered_once_in_order c conn st rest ch w :
  NsIqRoster ≠ NsDisco →
  Client.connection c = Some conn →
  xmpp.incoming conn = xmpp.Elem st :: rest →
  switch_key (xmpp.element st) = "iq" +:+ NsJabberClient →
  xml.Name.Space (xmpp.XMLName (xmpp.st_query st)) = NsIqRoster →
  Client.receivedUsers c = Some ch →
  ∃ users : list (option User.t),
    listen_round c w
    = Ret tt (Client.set_connection c (Some (xmpp.mkConn rest st)))
          (emit (EvSendUsers ch users) w)
    ∧ length users = length (xmpp.Items (xmpp.st_query st))
    ∧ ∀ (i : nat) item,
        xmpp.Items (xmpp.st_query st) !! i = Some item →
        users !! i = Some (Some (User.mk (xmpp.item.Jid item) (xmpp.item.Name item)
                                         (xmpp.item.MentionName item))).
Proof.
  intros Hns Hc Hi Hk Hq Hch.
  exists (users_of (xmpp.Items (xmpp.st_query st))). split; [|split].
  - unfold listen_round.
    rewrite (bind_Ret _ _ _ _ _ _ _ (Next_elem _ _ _ _ w Hc Hi)).
    cbv beta iota zeta. rewrite Hk, String.eqb_refl.
    set (c' := Client.set_connection c _).
    assert (Hc2 : Client.connection c' = Some (xmpp.mkConn rest st)) by reflexivity.
    unfold Query. rewrite (bind_Ret _ _ _ _ _ _ _ (decode_live _ _ _ w Hc2)).
    cbn [xmpp.current]. rewrite Hq, String.eqb_refl.
    destruct (String.eqb_spec NsIqRoster NsDisco) as [E|_]; [contradiction|].
    unfold bind, this, send. change (Client.receivedUsers c') with (Client.receivedUsers c).
    now rewrite Hch.
  - now rewrite users_of_map, length_fmap.
  - intros i item Hitem. rewrite users_of_map, list_lookup_fmap, Hitem. reflexivity.
Qed.

End Dispatcher.

(** ** The connection manager *)

Lemma emits_emit es e w : emit e (emits es w) = emits (es ++ [e]) w.
Proof. unfold emit, emits. cbn. now rewrite app_assoc. Qed.

Lemma emits_nil w : emits [] w = w.
Proof. destruct w. unfold emits. cbn. now rewrite app_nil_r. Qed.

Lemma emits_emits es es' w : emits es' (emits es w) = emits (es ++ es') w.
Proof. unfold emits. cbn. now rewrite app_assoc. Qed.

Lemma emit_emits e w : emit e w = emits [e] w.
Proof. reflexivity. Qed.

Lemma result_attr_spec attrs :
  result_attr attrs = true
  ↔ ∃ attr, attr ∈ attrs ∧ xml.Name.Local (xml.Attr.Name attr) = "type"
            ∧ xml.Attr.Value attr = "result".
Proof.
  induction attrs as [|a rest IH]; cbn [result_attr].
  - split; [discriminate|]. intros (attr & Hin & _). now apply elem_of_nil in Hin.
  - destruct (String.eqb_spec (xml.Name.Local (xml.Attr.Name a)) "type") as [Hl|Hl];
      destruct (String.eqb_spec (xml.Attr.Value a) "result") as [Hv|Hv]; cbn [andb].
    { split; [|reflexivity]. intros _. exists a. split; [apply elem_of_cons; now left|easy]. }
    all: rewrite IH; split;
      [ intros (attr & Hin & Hattr); exists attr; split; [apply elem_of_cons; now right|easy]
      | intros (attr & Hin & Hl' & Hv'); apply elem_of_cons in Hin as [->|Hin];
        [contradiction | exists attr; easy] ].
Qed.

(** The credentials are submitted once for every mechanism named PLAIN. *)
Lemma submit_plain_live mechanisms : ∀ c conn w,
  Client.connection c = Some conn →
  submit_plain mechanisms c w
  = Ret tt c
      (emits (replicate (length (filter (λ m, m = "PLAIN") mechanisms))
                (EvCall (xmpp.Auth (Client.Username c) (Client.Password c)
                                   (Client.Resource c)))) w).
Proof.
  induction mechanisms as [|m rest IH]; intros c conn w Hc.
  - cbn. unfold ret. now rewrite emits_nil.
  - cbn [submit_plain]. rewrite filter_cons.
    destruct (String.eqb_spec m "PLAIN") as [->|Hm].
    + rewrite decide_True by reflexivity.
      unfold bind at 1. unfold bind at 1. unfold this.
      rewrite (request_live _ _ _ _ Hc), (IH _ _ _ Hc), emit_emits, emits_emits.
      reflexivity.
    + rewrite decide_False by exact Hm.
      unfold bind at 1. unfold ret at 1. now rewrite (IH _ _ _ Hc).
Qed.

Section ConnectionManager.
Context `{XmppPackage}.

(** One round of the loop of [authenticate] on an element that is not an
    [iq]: some requests may be written, and the loop goes on. *)
Lemma authenticate_loop_pass fuel c conn st rest w :
  Client.connection c = Some conn →
  xmpp.incoming conn = xmpp.Elem st :: rest →
  switch_key (xmpp.element st) ≠ "iq" +:+ NsJabberClient →
  ∃ es, authenticate_loop (S fuel) c w
        = authenticate_loop fuel
            (Client.set_connection c (Some (xmpp.mkConn rest st))) (emits es w).
Proof.
  intros Hc Hi Hk. cbn [authenticate_loop].
  rewrite (bind_Ret _ _ _ _ _ _ _ (Next_elem _ _ _ _ w Hc Hi)).
  cbv beta iota zeta.
  set (c' := Client.set_connection c _).
  assert (Hc' : Client.connection c' = Some (xmpp.mkConn rest st)) by reflexivity.
  destruct (String.eqb_spec (switch_key (xmpp.element st)) ("stream" +:+ NsStream)) as [E|_].
  { unfold Features. rewrite (bind_Ret _ _ _ _ _ _ _ (decode_live _ _ _ w Hc')).
    cbn [xmpp.current]. destruct (xmpp.StartTLS (xmpp.st_features st)).
    - rewrite (bind_Ret _ _ _ _ _ _ _ (request_live _ _ _ w Hc')).
      now exists [EvCall xmpp.DoStartTLS].
    - rewrite (bind_Ret _ _ _ _ _ _ _ (submit_plain_live _ _ _ w Hc')).
      now eexists. }
  destruct (String.eqb_spec (switch_key (xmpp.element st)) ("proceed" +:+ NsTLS)) as [E|_].
  { rewrite (bind_Ret _ _ _ _ _ _ _ (request_live _ _ _ w Hc')).
    unfold bind at 1. unfold this.
    rewrite (bind_Ret _ _ _ _ _ _ _ (request_live _ _ _ _ Hc')).
    rewrite !emit_emits, emits_emits. now eexists. }
  destruct (String.eqb_spec (switch_key (xmpp.element st)) ("iq" +:+ NsJabberClient)) as [E|_];
    [contradiction|].
  exists []. now rewrite emits_nil.
Qed.

(** The loop of [authenticate] ends at the first read that is an [iq]
    element or a failure, with the verdict of that read. *)
Lemma authenticate_loop_ends r rest passed : ∀ fuel c conn w,
  Client.connection c = Some conn →
  xmpp.incoming conn = (xmpp.Elem <$> passed) ++ r :: rest →
  Forall (λ st, switch_key (xmpp.element st) ≠ "iq" +:+ NsJabberClient) passed →
  (∀ st, r = xmpp.Elem st → switch_key (xmpp.element st) = "iq" +:+ NsJabberClient) →
  (length passed < fuel)%nat →
  ∃ c' w', authenticate_loop fuel c w = Ret (verdict_of r) c' w'
           ∧ pending c' = length rest.
Proof.
  induction passed as [|st passed IH]; intros fuel c conn w Hc Hi Hp Hr Hf.
  - destruct fuel as [|fuel]; [cbn in Hf; lia|]. cbn [fmap list_fmap app] in Hi.
    cbn [authenticate_loop]. destruct r as [st|e].
    + rewrite (bind_Ret _ _ _ _ _ _ _ (Next_elem _ _ _ _ w Hc Hi)).
      cbv beta iota zeta. rewrite (Hr st eq_refl).
      rewrite key_iq_stream, key_iq_proceed, String.eqb_refl.
      cbn [verdict_of].
      destruct (result_attr _); eexists _, _; (split; [reflexivity|reflexivity]).
    + rewrite (bind_Ret _ _ _ _ _ _ _ (Next_fail _ _ _ _ w Hc Hi)).
      eexists _, _. split; reflexivity.
  - destruct fuel as [|fuel]; [cbn in Hf; lia|]. cbn [fmap list_fmap app] in Hi.
    apply Forall_cons in Hp as [Hst Hp].
    destruct (authenticate_loop_pass fuel c conn st _ w Hc Hi Hst) as [es ->].
    eapply IH; [reflexivity| reflexivity |exact Hp|exact Hr|cbn in Hf; lia].
Qed.

(** [authenticate] gives its loop all the rounds it can use. *)
Lemma authenticate_loop_fuel : ∀ fuel c w,
  (pending c < fuel)%nat →
  ∀ c' w', authenticate_loop fuel c w ≠ OutOfFuel c' w'.
Proof.
  induction fuel as [|fuel IH]; intros c w Hf c' w'; [lia|].
  cbn [authenticate_loop]. unfold bind at 1, Next.
  unfold pending in Hf.
  destruct (Client.connection c) as [conn|] eqn:Hc; [|discriminate].
  destruct (xmpp.incoming conn) as [|[st|e] rest] eqn:Hi; [discriminate| |discriminate].
  cbv beta iota zeta.
  set (c1 := Client.set_connection c _).
  assert (Hc1 : Client.connection c1 = Some (xmpp.mkConn rest st)) by reflexivity.
  assert (Hp1 : (pending c1 < fuel)%nat) by (cbn in *; lia).
  destruct (String.eqb (switch_key (xmpp.element st)) ("stream" +:+ NsStream)).
  { unfold Features. rewrite (bind_Ret _ _ _ _ _ _ _ (decode_live _ _ _ w Hc1)).
    destruct (xmpp.StartTLS _).
    - rewrite (bind_Ret _ _ _ _ _ _ _ (request_live _ _ _ w Hc1)). now apply IH.
    - rewrite (bind_Ret _ _ _ _ _ _ _ (submit_plain_live _ _ _ w Hc1)). now apply IH. }
  destruct (String.eqb (switch_key (xmpp.element st)) ("proceed" +:+ NsTLS)).
  { rewrite (bind_Ret _ _ _ _ _ _ _ (request_live _ _ _ w Hc1)).
    unfold bind at 1. unfold this.
    rewrite (bind_Ret _ _ _ _ _ _ _ (request_live _ _ _ _ Hc1)). now apply IH. }
  destruct (String.eqb (switch_key (xmpp.element st)) ("iq" +:+ NsJabberClient)).
  { destruct (result_attr _); discriminate. }
  now apply IH.
Qed.

Lemma authenticate_total c w c' w' : authenticate c w ≠ OutOfFuel c' w'.
Proof.
  unfold authenticate. unfold bind at 1. unfold this.
  unfold bind at 1. unfold request.
  destruct (Client.connection c) eqn:Hc; [|discriminate].
  apply authenticate_loop_fuel. lia.
Qed.

End ConnectionManager.

(** ** Only the session of a client is ever replaced *)

Lemma keeps_bind {A B} (m : M A) (k : A → M B) :
  keeps_identity m → (∀ a, keeps_identity (k a)) → keeps_identity (bind m k).
Proof.
  intros Hm Hk c w. unfold bind. specialize (Hm c w).
  destruct (m c w) as [a c1 w1| | |]; try exact Hm.
  rewrite <- Hm. apply Hk.
Qed.

Lemma keeps_ret {A} (a : A) : keeps_identity (ret a).
Proof. now intros c w. Qed.

Lemma keeps_this : keeps_identity this.
Proof. now intros c w. Qed.

Lemma keeps_log e : keeps_identity (log e).
Proof. now intros c w. Qed.

Lemma keeps_request r : keeps_identity (request r).
Proof. intros c w. unfold request. now destruct (Client.connection c). Qed.

Lemma keeps_decode {A} (f : xmpp.stanza → A) : keeps_identity (decode f).
Proof. intros c w. unfold decode. now destruct (Client.connection c). Qed.

Lemma keeps_Next : keeps_identity Next.
Proof.
  intros c w. unfold Next. destruct (Client.connection c) as [conn|]; [|reflexivity].
  now destruct (xmpp.incoming conn) as [|[st|e] rest].
Qed.

Lemma keeps_Dial h : keeps_identity (Dial h).
Proof. intros c w. unfold Dial. now destruct (dials w) as [|[conn err] rest]. Qed.

Lemma keeps_assign_connection conn : keeps_identity (assign_connection conn).
Proof. now intros c w. Qed.

Lemma keeps_submit_plain mechanisms : keeps_identity (submit_plain mechanisms).
Proof.
  induction mechanisms as [|m rest IH]; [apply keeps_ret|].
  cbn [submit_plain]. apply keeps_bind; [|intros _; exact IH].
  destruct (String.eqb m "PLAIN"); [|apply keeps_ret].
  apply keeps_bind; [apply keeps_this|intros c; apply keeps_request].
Qed.

Create HintDb keeps.
#[local] Hint Resolve keeps_ret keeps_this keeps_log keeps_request keeps_decode
  keeps_Next keeps_Dial keeps_assign_connection keeps_submit_plain : keeps.

Section Identity.
Context `{XmppPackage}.

Lemma keeps_authenticate_loop fuel : keeps_identity (authenticate_loop fuel).
Proof.
  induction fuel as [|fuel IH]; [now intros c w|].
  cbn [authenticate_loop]. apply keeps_bind; [apply keeps_Next|].
  intros [element [e|]]; [apply keeps_ret|].
  cbv zeta.
  destruct (String.eqb _ _).
  { apply keeps_bind; [apply keeps_decode|]. intros features.
    apply keeps_bind; [|intros _; exact IH].
    destruct (xmpp.StartTLS features); auto with keeps. }
  destruct (String.eqb _ _).
  { apply keeps_bind; [apply keeps_request|]. intros _.
    apply keeps_bind; [apply keeps_this|]. intros c.
    apply keeps_bind; [apply keeps_request|]. intros _. exact IH. }
  destruct (String.eqb _ _); [destruct (result_attr _); apply keeps_ret|exact IH].
Qed.

Lemma keeps_authenticate : keeps_identity authenticate.
Proof.
  unfold authenticate. apply keeps_bind; [apply keeps_this|]. intros c.
  apply keeps_bind; [apply keeps_request|]. intros _. apply keeps_authenticate_loop.
Qed.

Lemma keeps_connect : keeps_identity connect.
Proof.
  unfold connect. apply keeps_bind; [apply keeps_Dial|]. intros [connection err].
  apply keeps_bind; [apply keeps_assign_connection|]. intros _.
  destruct err; [apply keeps_ret|].
  apply keeps_bind; [apply keeps_authenticate|]. intros [e|]; [apply keeps_ret|].
  apply keeps_bind; [apply keeps_log|]. intros _.
  apply keeps_bind; [apply keeps_this|]. intros c.
  apply keeps_bind; [apply keeps_log|]. intros _. apply keeps_ret.
Qed.

Lemma connect_failed_dial c w h e rest :
  dials w = (h, Some e) :: rest →
  connect c w
  = Ret (Some (Transport e)) (Client.set_connection c h)
        (emit (EvDial host) (mkWorld rest (next_chan w) (trace w))).
Proof. intros Hd. unfold connect, bind, Dial. now rewrite Hd. Qed.

(** C10, as the code has it.  [connect] stores what the dial hands back in
    the session field before it looks at the dial error: when the dial
    fails, [connect] returns that error and the session the client had is
    already replaced by whatever handle the failed dial returned (nil when
    the dial returns nil).  No other step of the connect flow is taken. *)
Theorem connect_failed_dial_replaces_session c w h e rest :
  dials w = (h, Some e) :: rest →
  connect c w
  = Ret (Some (Transport e)) (Client.set_connection c h)
        (emit (EvDial host) (mkWorld rest (next_chan w) (trace w)))
  ∧ Client.connection (final_client (connect c w)) = h.
Proof.
  intros Hd. pose proof (connect_failed_dial c w h e rest Hd) as E.
  split; [exact E|]. now rewrite E.
Qed.

(** C9. [NewClient] runs [connect] on a client that already has its Id,
    [user@chat.hipchat.com], and its four channels, allocated and distinct,
    while nothing has been dialed yet.  Whenever it returns, with an error
    or without, the pointer it returns is not nil and points to that
    client, Id and channels unchanged; and it does return, with the client
    and the error, when the dial fails. *)
Theorem NewClient_returns_client_with_error user pass resource w :
  ∃ c0 w0,
    ( Client.Username c0 = user ∧ Client.Password c0 = pass
      ∧ Client.Resource c0 = resource
      ∧ Client.Id c0 = user +:+ "@" +:+ host
      ∧ ∃ users rooms messages connects,
          Client.receivedUsers c0 = Some users
          ∧ Client.receivedRooms c0 = Some rooms
          ∧ Client.receivedMessage c0 = Some messages
          ∧ Client.onConnect c0 = Some connects
          ∧ NoDup [users; rooms; messages; connects] )
    ∧ dials w0 = dials w ∧ trace w0 = trace w
    ∧ NewClient user pass resource w
      = (err <- connect ;; c <- this ;; ret (Some c, err)) c0 w0
    ∧ ( ∀ r c' w', NewClient user pass resource w = Ret r c' w' →
          ∃ err, r = (Some c', err)
                 ∧ connect c0 w0 = Ret err c' w'
                 ∧ identity c' = identity c0 )
    ∧ ( ∀ h e rest, dials w = (h, Some e) :: rest →
          ∃ c' w', NewClient user pass resource w
                   = Ret (Some c', Some (Transport e)) c' w'
                   ∧ identity c' = identity c0 ).
Proof.
  set (n := next_chan w).
  set (c0 := Client.mk user pass resource (user +:+ "@" +:+ host) ∅ None
               (Some (Chan n)) (Some (Chan (S n)))
               (Some (Chan (S (S n)))) (Some (Chan (S (S (S n)))))).
  set (w0 := mkWorld (dials w) (S (S (S (S n)))) (trace w)).
  assert (E : NewClient user pass resource w
              = (err <- connect ;; c <- this ;; ret (Some c, err)) c0 w0)
    by reflexivity.
  exists c0, w0.
  split; [|split; [|split; [|split; [exact E|split]]]].
  - do 4 (split; [reflexivity|]).
    eexists _, _, _, _. do 4 (split; [reflexivity|]).
    repeat (apply NoDup_cons_2;
            [rewrite ?elem_of_cons, elem_of_nil; intros Hx;
             repeat destruct Hx as [Hx|Hx]; try (injection Hx; lia); exact Hx|]).
    apply NoDup_nil_2.
  - reflexivity.
  - reflexivity.
  - intros r c' w'. rewrite E. unfold bind at 1.
    pose proof (keeps_connect c0 w0) as Hk.
    destruct (connect c0 w0) as [err c1 w1| | |]; try discriminate.
    unfold bind, this, ret. intros [= <- <- <-]. eauto.
  - intros h e rest Hd. rewrite E. unfold bind at 1.
    rewrite (connect_failed_dial c0 w0 h e rest Hd).
    eexists _, _. split; reflexivity.
Qed.

End Identity.

(** ** Authentication *)

Section Authentication.
Context `{XmppPackage}.


(** C4. When the reads of the session are elements that are not [iq]
    followed by a read that is an [iq] element or a failure, [authenticate]
    returns at that read: with success (nil) exactly when it is an [iq]
    element carrying an attribute type=result; with the error "could not
    authenticate", which is no transport error, when it is an [iq] element
    without it; and with the transport error of the read when the read
    fails. *)
Theorem authentication_decided_by_first_iq c conn passed r rest w :
  Client.connection c = Some conn →
  xmpp.incoming conn = (xmpp.Elem <$> passed) ++ r :: rest →
  Forall (λ st, switch_key (xmpp.element st) ≠ "iq" +:+ NsJabberClient) passed →
  (∀ st, r = xmpp.Elem st → switch_key (xmpp.element st) = "iq" +:+ NsJabberClient) →
  ∃ verdict c' w',
    authenticate c w = Ret verdict c' w'
    ∧ ( verdict = None
        ↔ ∃ st, r = xmpp.Elem st ∧ carries_type_result (xmpp.element st) )
    ∧ ( ∀ st, r = xmpp.Elem st → ¬ carries_type_result (xmpp.element st) →
          verdict = Some (errors_New "could not authenticate")
          ∧ ∀ e, verdict ≠ Some (Transport e) )
    ∧ ( ∀ e, r = xmpp.Fail e → verdict = Some (Transport e) ).
Proof.
  intros Hc Hi Hp Hr.
  assert (Hrun : ∃ c' w', authenticate c w = Ret (verdict_of r) c' w').
  { unfold authenticate. unfold bind at 1. unfold this.
    rewrite (bind_Ret _ _ _ _ _ _ _ (request_live _ _ _ w Hc)).
    destruct (authenticate_loop_ends r rest passed (S (pending c)) c conn
                (emit (EvCall (xmpp.Stream (Client.Id c) host)) w) Hc Hi Hp Hr)
      as (c' & w' & E & _).
    - unfold pending. rewrite Hc, Hi, length_app, length_fmap. cbn. lia.
    - eauto. }
  destruct Hrun as (c' & w' & E).
  exists (verdict_of r), c', w'. split; [exact E|]. split; [|split].
  - destruct r as [st|e]; cbn [verdict_of].
    + pose proof (result_attr_spec (xml.StartElement.Attr (xmpp.element st))) as Hs.
      fold (carries_type_result (xmpp.element st)) in Hs.
      destruct (result_attr _).
      * split; [|reflexivity]. intros _. exists st. split; [reflexivity|now apply Hs].
      * split; [discriminate|]. intros (st' & [= <-] & Hres).
        apply Hs in Hres. discriminate Hres.
    + split; [discriminate|]. now intros (st & Hst & _).
  - intros st -> Hno. cbn [verdict_of].
    pose proof (result_attr_spec (xml.StartElement.Attr (xmpp.element st))) as Hs.
    fold (carries_type_result (xmpp.element st)) in Hs.
    destruct (result_attr _); [exfalso; now apply Hno, Hs|].
    split; [reflexivity|discriminate].
  - now intros e ->.
Qed.

End Authentication.

(** ** [strings.Contains] is the substring test *)

Lemma append_cons x (a b : string) : String x a +:+ b = String x (a +:+ b).
Proof. reflexivity. Qed.

Lemma append_nil (b : string) : "" +:+ b = b.
Proof. reflexivity. Qed.

Lemma prefix_spec a : ∀ b, String.prefix a b = true ↔ ∃ post, b = a +:+ post.
Proof.
  induction a as [|x a IH]; intros b.
  - destruct b; cbn; (split; [intros _; eexists; reflexivity|reflexivity]).
  - destruct b as [|y b]; cbn.
    + split; [discriminate|]. now intros [post Hpost].
    + destruct (Ascii.ascii_dec x y) as [->|Hxy].
      * rewrite IH. split; intros [post Hpost]; exists post;
          rewrite append_cons in *; congruence.
      * split; [discriminate|]. intros [post Hpost].
        rewrite append_cons in Hpost. congruence.
Qed.

Lemma Contains_spec substr s :
  strings.Contains s substr = true ↔ ∃ pre post, s = pre +:+ substr +:+ post.
Proof.
  induction s as [|x s IH]; cbn [strings.Contains]; rewrite orb_true_iff, prefix_spec.
  - split.
    + intros [[post Hpost]|Hf]; [|discriminate]. now exists "", post.
    + intros (pre & post & Hs). left. destruct pre; [now exists post|].
      rewrite append_cons in Hs. discriminate Hs.
  - rewrite IH. split.
    + intros [[post Hpost]|(pre & post & Hs)].
      * now exists "", post.
      * exists (String x pre), post. rewrite append_cons. now rewrite Hs.
    + intros (pre & post & Hs). destruct pre as [|y pre].
      * left. now exists post.
      * right. exists pre, post. rewrite append_cons in Hs. congruence.
Qed.

Lemma bare_address_prefix s : ∃ rest, s = bare_address s +:+ rest.
Proof.
  induction s as [|x s [rest IH]]; cbn [bare_address]; [now exists ""|].
  destruct (Ascii.eqb x "/"); [now eexists|].
  exists rest. rewrite append_cons. congruence.
Qed.

Lemma after_at_suffix s : ∀ d, after_at s = Some d → ∃ pre, s = pre +:+ d.
Proof.
  induction s as [|x s IH]; intros d; cbn [after_at]; [discriminate|].
  destruct (Ascii.eqb x "@").
  - intros [= <-]. now exists (String x "").
  - intros Hd. destruct (IH d Hd) as [pre ->]. now exists (String x pre).
Qed.

Lemma string_app_assoc (a b c : string) : (a +:+ b) +:+ c = a +:+ b +:+ c.
Proof.
  induction a as [|x a IH]; [reflexivity|]. rewrite !append_cons. congruence.
Qed.

Lemma room_service_domain_contains destination :
  in_room_service_domain destination = true →
  strings.Contains destination conf = true.
Proof.
  unfold in_room_service_domain, domain_part. intros Hd%String.eqb_eq.
  apply Contains_spec.
  destruct (bare_address_prefix destination) as [rest Hrest].
  destruct (after_at (bare_address destination)) as [d|] eqn:Hat; cbn in Hd.
  - destruct (after_at_suffix _ _ Hat) as [pre Hpre]. subst d.
    exists pre, rest. rewrite Hrest at 1. now rewrite Hpre, string_app_assoc.
  - exists "", rest. rewrite append_nil. now rewrite <- Hd.
Qed.

(** ** The facade *)

(** C8, as the code has it.  [Say] takes the group-chat send path if and
    only if the text conf.hipchat.com occurs somewhere in the destination,
    and the direct-message send path otherwise.  A destination within the
    room-service domain is therefore sent on the group-chat path. *)
Theorem Say_routes_by_occurrence_of_conf c conn to name body w :
  Client.connection c = Some conn →
  let from := Client.Id c +:+ "/" +:+ name in
  let occurs := ∃ pre post, to = pre +:+ conf +:+ post in
  ( occurs → Say to name body c w = Ret tt c (emit (EvCall (xmpp.MUCSend to from body)) w) )
  ∧ ( ¬ occurs → Say to name body c w = Ret tt c (emit (EvCall (xmpp.Send to from body)) w) )
  ∧ ( in_room_service_domain to = true →
      Say to name body c w = Ret tt c (emit (EvCall (xmpp.MUCSend to from body)) w) ).
Proof.
  intros Hc from occurs.
  assert (Hyes : strings.Contains to conf = true →
            Say to name body c w = Ret tt c (emit (EvCall (xmpp.MUCSend to from body)) w)).
  { intros E. unfold Say, bind, this. rewrite E. now rewrite (request_live _ _ _ _ Hc). }
  split; [|split].
  - intros Ho. now apply Hyes, Contains_spec.
  - intros Ho. unfold Say, bind, this.
    destruct (strings.Contains to conf) eqn:E.
    + exfalso. now apply Ho, Contains_spec.
    + now rewrite (request_live _ _ _ _ Hc).
  - intros Hd. now apply Hyes, room_service_domain_contains.
Qed.

(** ** The reconnect supervisor *)

Section Supervisor.
Context `{XmppPackage}.

(** The supervisor leaves by [goto Reconnected] at the first attempt whose
    [connect] returns an error. *)
Lemma reconnect_leaves_at_failed_attempt err c w h e rest :
  dials w = (h, Some e) :: rest →
  reconnect err c w
  = Ret tt (Client.set_connection c h)
        (emits [EvSleep time.Second; EvDial host]
               (mkWorld rest (next_chan w) (trace w))).
Proof.
  intros Hd.
  assert (Hinner : ∀ i tries,
    inner_attempts (i :: tries) err c w
    = Ret (Some (Transport e), true) (Client.set_connection c h)
          (emits [EvSleep (i * time.Second)%Z; EvDial host]
                 (mkWorld rest (next_chan w) (trace w)))).
  { intros i tries. cbn [inner_attempts].
    rewrite (bind_Ret (Sleep (i * time.Second)%Z) _ c w tt c
               (emit (EvSleep (i * time.Second)%Z) w) eq_refl).
    rewrite (bind_Ret _ _ _ _ _ _ _
               (connect_failed_dial c (emit (EvSleep (i * time.Second)%Z) w) h e rest Hd)).
    unfold ret, emits, emit. cbn. now rewrite <- app_assoc. }
  unfold reconnect.
  change (seqZ 0 5) with (0 :: seqZ 1 4)%Z. cbn [outer_rounds].
  change (seqZ 1 10) with (1 :: seqZ 2 9)%Z.
  unfold bind at 1. unfold bind at 1. rewrite Hinner. reflexivity.
Qed.

(** One attempt of the inner loop: the sleep, then [connect]; the loop is
    left when [connect] returns an error and goes on when it returns nil. *)
Lemma inner_attempts_step i tries err c w :
  inner_attempts (i :: tries) err c w
  = match connect c (emit (EvSleep (i * time.Second)%Z) w) with
    | Ret (Some e) c1 w1 => Ret (Some e, true) c1 w1
    | Ret None c1 w1 => inner_attempts tries None c1 w1
    | Panicked v c1 w1 => Panicked v c1 w1
    | Blocked c1 w1 => Blocked c1 w1
    | OutOfFuel c1 w1 => OutOfFuel c1 w1
    end.
Proof.
  cbn [inner_attempts]. unfold bind at 1. unfold Sleep, log. unfold bind at 1.
  destruct (connect c _) as [[e|] c1 w1| | |]; reflexivity.
Qed.

(** The inner loop ends without the [goto] only after a [connect] that
    returned nil. *)
Lemma inner_attempts_fall_through tries : ∀ err c w err' c' w',
  tries ≠ [] →
  inner_attempts tries err c w = Ret (err', false) c' w' → err' = None.
Proof.
  induction tries as [|i tries IH]; intros err c w err' c' w' Hne; [contradiction|].
  rewrite inner_attempts_step.
  destruct (connect c _) as [[e|] c1 w1| | |]; try discriminate.
  destruct tries as [|j tries].
  - cbn. unfold ret. now intros [= <- _ _].
  - now apply IH.
Qed.

Lemma outer_rounds_fall_through ms : ∀ err c w err' c' w',
  ms ≠ [] →
  outer_rounds ms err c w = Ret (err', false) c' w' → err' = None.
Proof.
  induction ms as [|m ms IH]; intros err c w err' c' w' Hne; [contradiction|].
  cbn [outer_rounds]. unfold bind at 1.
  destruct (inner_attempts (seqZ 1 10) err c w) as [[e1 left] c1 w1| | |] eqn:Hinner;
    try discriminate.
  destruct left; [unfold ret; discriminate|].
  apply inner_attempts_fall_through in Hinner as ->; [|discriminate].
  unfold bind at 1. unfold Sleep, log.
  destruct ms as [|m' ms].
  - cbn. unfold ret. now intros [= <- _ _].
  - now apply IH.
Qed.

End Supervisor.

(** C1, on the code.  In the inner loop an attempt whose [connect] returns
    nil is followed by the next attempt, and the loop is left at an attempt
    whose [connect] returns an error.  So, when the session of bob fails to
    read, the first dial gives a session on which the server accepts the
    credentials and the second dial is refused: after the first attempt
    succeeded ([connect] started the dispatcher and the connect signal),
    the supervisor sleeps two seconds and dials again; it leaves for the
    dispatch loop at the attempt that failed, and bob is left without a
    session. *)
Theorem supervisor_dials_again_after_success :
  ( ∀ (H : XmppPackage) i tries err c w c1 w1,
      connect c (emit (EvSleep (i * time.Second)%Z) w) = Ret None c1 w1 →
      inner_attempts (i :: tries) err c w = inner_attempts tries None c1 w1 )
  ∧ ( ∀ (H : XmppPackage) i tries err c w e c1 w1,
        connect c (emit (EvSleep (i * time.Second)%Z) w) = Ret (Some e) c1 w1 →
        inner_attempts (i :: tries) err c w = Ret (Some e, true) c1 w1 )
  ∧ @listen_round xmpp_standard (bob [xmpp.Fail connection_reset])
      (world_of [(Some accepting_session, None); (None, Some connection_refused)])
    = Ret tt (Client.set_connection (bob []) None)
        (mkWorld [] 4
           [EvSleep 1000000000%Z; EvDial "chat.hipchat.com";
            EvCall (xmpp.Stream "bob@chat.hipchat.com" "chat.hipchat.com");
            EvCall xmpp.DoStartTLS; EvCall xmpp.UseTLS;
            EvCall (xmpp.Stream "bob@chat.hipchat.com" "chat.hipchat.com");
            EvCall (xmpp.Auth "bob" "pw" "desk");
            EvGo go_listen; EvGo (go_onConnect (Some (Chan 3)));
            EvSleep 2000000000%Z; EvDial "chat.hipchat.com"]).
Proof.
  split; [|split].
  - intros H i tries err c w c1 w1 E. now rewrite inner_attempts_step, E.
  - intros H i tries err c w e c1 w1 E. now rewrite inner_attempts_step, E.
  - vm_compute. reflexivity.
Qed.

(** C2, on the code.  The five rounds end without the [goto], so that
    [panic(err)] comes next, only with [err] nil, that is after a [connect]
    that succeeded.  When every dial is refused, the supervisor makes one
    attempt and goes back to the dispatch loop: it does not panic.  When
    fifty dials in a row give a session that authenticates, it makes the
    fifty attempts, with the sleeps of five rounds, and then panics with
    the nil error of the last [connect]. *)
Theorem supervisor_panics_when_every_attempt_succeeds :
  ( ∀ (H : XmppPackage) err c w err' c' w',
      outer_rounds (seqZ 0 5) err c w = Ret (err', false) c' w' → err' = None )
  ∧ @listen_round xmpp_standard (bob [xmpp.Fail connection_reset])
      (world_of (replicate 50 (None, Some connection_refused)))
    = Ret tt (Client.set_connection (bob []) None)
        (mkWorld (replicate 49 (None, Some connection_refused)) 4
           [EvSleep 1000000000%Z; EvDial "chat.hipchat.com"])
  ∧ match @listen_round xmpp_standard (bob [xmpp.Fail connection_reset])
            (world_of (replicate 50 (Some accepting_session, None))) with
    | Panicked v _ w =>
      v = PanicError None
      ∧ dials w = []
      ∧ dialed (trace w) = replicate 50 "chat.hipchat.com"
      ∧ sleeps (trace w)
        = mjoin ((λ m, ((λ i, i * time.Second)%Z <$> seqZ 1 10)
                       ++ [(m * time.Minute)%Z]) <$> seqZ 0 5)
    | _ => False
    end.
Proof.
  split; [|split].
  - intros H err c w err' c' w'. apply outer_rounds_fall_through. discriminate.
  - vm_compute. reflexivity.
  - vm_compute. repeat split; reflexivity.
Qed.

(** ** Examples *)

(** C8 as it is worded fails: bob's own address with the resource
    conf.hipchat.com is not within the room-service domain, and [Say] sends
    on the group-chat path to it. *)
Lemma Say_group_path_outside_room_domain :
  let to := "bob@chat.hipchat.com/conf.hipchat.com" in
  ¬ ( Say to "desk" "hi" (bob []) (world_of [])
      = Ret tt (bob [])
          (emit (EvCall (xmpp.MUCSend to "bob@chat.hipchat.com/desk" "hi")) (world_of []))
      ↔ in_room_service_domain to = true ).
Proof.
  intros to [Hgroup _].
  assert (Hin : in_room_service_domain to = true) by (apply Hgroup; vm_compute; reflexivity).
  vm_compute in Hin. discriminate Hin.
Qed.

(** C10 at work: bob has a session; the dial is refused and hands back
    nil; [connect] returns the error and bob's session is gone. *)
Lemma connect_failed_dial_replaces_session_witness :
  Client.connection (bob []) = Some (session [])
  ∧ connect (H := xmpp_standard) (bob []) (world_of [(None, Some connection_refused)])
    = Ret (Some (Transport connection_refused)) (Client.set_connection (bob []) None)
          (mkWorld [] 4 [EvDial "chat.hipchat.com"])
  ∧ Client.connection
      (final_client (connect (H := xmpp_standard) (bob [])
                       (world_of [(None, Some connection_refused)]))) = None.
Proof.
  split; [reflexivity|].
  exact (connect_failed_dial_replaces_session (H := xmpp_standard) (bob [])
           (world_of [(None, Some connection_refused)]) None connection_refused []
           eq_refl).
Defined.

(** C10 as it is worded fails: a dial that fails and hands back a handle
    together with its error leaves that handle, not nil, in the session
    field, while [connect] returns the error. *)
Lemma connect_failed_dial_keeps_returned_handle :
  let tried := connect (H := xmpp_standard) (bob [])
                 (world_of [(Some accepting_session, Some connection_refused)]) in
  tried = Ret (Some (Transport connection_refused))
              (Client.set_connection (bob []) (Some accepting_session))
              (mkWorld [] 4 [EvDial "chat.hipchat.com"])
  ∧ ¬ (Client.connection (final_client tried) = None).
Proof.
  intros tried.
  assert (E : tried = Ret (Some (Transport connection_refused))
                          (Client.set_connection (bob []) (Some accepting_session))
                          (mkWorld [] 4 [EvDial "chat.hipchat.com"]))
    by (vm_compute; reflexivity).
  split; [exact E|]. rewrite E. discriminate.
Qed.

(** C5 at work: a chat message with a body is delivered. *)
Lemma message_delivered_witness :
  let st := message_stanza [attribute "type" "chat"; attribute "from" "alice@chat.hipchat.com";
                            attribute "to" "bob@chat.hipchat.com"; attribute "mid" "m1"]
                           "hello" in
  listen_round (H := xmpp_standard) (bob [xmpp.Elem st]) (world_of [])
  = Ret tt (Client.set_connection (bob []) (Some (xmpp.mkConn [] st)))
      (emit (EvSendMessage (Chan 2)
               (Message.mk "m1" "alice@chat.hipchat.com" "bob@chat.hipchat.com"
                           "hello" "chat"))
            (world_of [])).
Proof.
  intros st.
  apply (proj1 (message_delivered_iff_chat_with_body (H := xmpp_standard)
                  (bob [xmpp.Elem st]) (session [xmpp.Elem st]) st [] (Chan 2)
                  (world_of []) eq_refl eq_refl eq_refl eq_refl)).
  split; [left; vm_compute; reflexivity | discriminate].
Defined.

(** C6 at work: two rooms discovered. *)
Lemma rooms_delivered_witness :
  let st := query_stanza "http://jabber.org/protocol/disco#items"
              [xmpp.item.mk "1_lobby@conf.hipchat.com" "Lobby" "";
               xmpp.item.mk "1_ops@conf.hipchat.com" "Ops" ""] in
  ∃ rooms : list (option Room.t),
    listen_round (H := xmpp_standard) (bob [xmpp.Elem st]) (world_of [])
    = Ret tt (Client.set_connection (bob [xmpp.Elem st]) (Some (xmpp.mkConn [] st)))
          (emit (EvSendRooms (Chan 1) rooms) (world_of []))
    ∧ length rooms = length (xmpp.Items (xmpp.st_query st))
    ∧ ∀ (i : nat) item,
        xmpp.Items (xmpp.st_query st) !! i = Some item →
        rooms !! i = Some (Some (Room.mk (xmpp.item.Jid item) (xmpp.item.Name item))).
Proof.
  intros st.
  exact (rooms_delivered_once_in_order (H := xmpp_standard)
           (bob [xmpp.Elem st]) (session [xmpp.Elem st]) st [] (Chan 1) (world_of [])
           eq_refl eq_refl eq_refl eq_refl eq_refl).
Defined.

(** C7 at work: a roster of two users. *)
Lemma users_delivered_witness :
  let st := query_stanza "jabber:iq:roster"
              [xmpp.item.mk "1_1@chat.hipchat.com" "Alice A" "alice";
               xmpp.item.mk "1_2@chat.hipchat.com" "Carol C" "carol"] in
  ∃ users : list (option User.t),
    listen_round (H := xmpp_standard) (bob [xmpp.Elem st]) (world_of [])
    = Ret tt (Client.set_connection (bob [xmpp.Elem st]) (Some (xmpp.mkConn [] st)))
          (emit (EvSendUsers (Chan 0) users) (world_of []))
    ∧ length users = length (xmpp.Items (xmpp.st_query st))
    ∧ ∀ (i : nat) item,
        xmpp.Items (xmpp.st_query st) !! i = Some item →
        users !! i = Some (Some (User.mk (xmpp.item.Jid item) (xmpp.item.Name item)
                                         (xmpp.item.MentionName item))).
Proof.
  intros st.
  refine (users_delivered_once_in_order (H := xmpp_standard)
            (bob [xmpp.Elem st]) (session [xmpp.Elem st]) st [] (Chan 0) (world_of [])
            _ eq_refl eq_refl eq_refl eq_refl eq_refl).
  discriminate.
Defined.


(** C4 at work: on the accepting session the first [iq] carries
    type=result, and [authenticate] returns nil. *)
Lemma authentication_decided_witness :
  ∃ verdict c' w',
    authenticate (H := xmpp_standard) (bob (xmpp.incoming accepting_session)) (world_of [])
    = Ret verdict c' w'
    ∧ verdict = None.
Proof.
  destruct (authentication_decided_by_first_iq (H := xmpp_standard)
              (bob (xmpp.incoming accepting_session)) accepting_session
              [features_stanza (Some tt) ["PLAIN"]; proceed_stanza;
               features_stanza None ["X-HIPCHAT"; "PLAIN"];
               bare_stanza "urn:ietf:params:xml:ns:xmpp-sasl" "success" []]
              (xmpp.Elem (iq_stanza [attribute "id" "bind"; attribute "type" "result"]))
              [] (world_of []) eq_refl eq_refl)
    as (verdict & c' & w' & E & Hok & _).
  - repeat (apply Forall_cons_2; [vm_compute; discriminate|]). apply Forall_nil_2.
  - intros st [= <-]. reflexivity.
  - exists verdict, c', w'. split; [exact E|]. apply Hok.
    eexists. split; [reflexivity|].
    exists (attribute "type" "result"). split; [|split; reflexivity].
    apply elem_of_cons. right. apply elem_of_cons. now left.
Defined.

(** C8 at work: a room of the room service is addressed on the
    group-chat path. *)
Lemma Say_routes_witness :
  Say "1_lobby@conf.hipchat.com" "desk" "hello" (bob []) (world_of [])
  = Ret tt (bob [])
      (emit (EvCall (xmpp.MUCSend "1_lobby@conf.hipchat.com"
                       "bob@chat.hipchat.com/desk" "hello")) (world_of [])).
Proof.
  apply (proj2 (proj2 (Say_routes_by_occurrence_of_conf (bob []) (session [])
           "1_lobby@conf.hipchat.com" "desk" "hello" (world_of []) eq_refl))).
  vm_compute. reflexivity.
Defined.

(** * More of the client *)

(** ** What a connect flow writes *)

Section ConnectFlow.
Context `{XmppPackage}.

(** One round of the loop of [authenticate] on an element that is not an
    [iq] writes requests only. *)
Lemma authenticate_loop_pass_calls fuel c conn st rest w :
  Client.connection c = Some conn →
  xmpp.incoming conn = xmpp.Elem st :: rest →
  switch_key (xmpp.element st) ≠ "iq" +:+ NsJabberClient →
  ∃ es, Forall (λ e, is_call e = true) es
        ∧ authenticate_loop (S fuel) c w
          = authenticate_loop fuel
              (Client.set_connection c (Some (xmpp.mkConn rest st))) (emits es w).
Proof.
  intros Hc Hi Hk. cbn [authenticate_loop].
  rewrite (bind_Ret _ _ _ _ _ _ _ (Next_elem _ _ _ _ w Hc Hi)).
  cbv beta iota zeta.
  set (c' := Client.set_connection c _).
  assert (Hc' : Client.connection c' = Some (xmpp.mkConn rest st)) by reflexivity.
  destruct (String.eqb_spec (switch_key (xmpp.element st)) ("stream" +:+ NsStream)) as [E|_].
  { unfold Features. rewrite (bind_Ret _ _ _ _ _ _ _ (decode_live _ _ _ w Hc')).
    cbn [xmpp.current]. destruct (xmpp.StartTLS (xmpp.st_features st)).
    - rewrite (bind_Ret _ _ _ _ _ _ _ (request_live _ _ _ w Hc')).
      exists [EvCall xmpp.DoStartTLS]. split; [now repeat constructor|reflexivity].
    - rewrite (bind_Ret _ _ _ _ _ _ _ (submit_plain_live _ _ _ w Hc')).
      eexists. split; [|reflexivity]. now apply Forall_replicate. }
  destruct (String.eqb_spec (switch_key (xmpp.element st)) ("proceed" +:+ NsTLS)) as [E|_].
  { rewrite (bind_Ret _ _ _ _ _ _ _ (request_live _ _ _ w Hc')).
    unfold bind at 1. unfold this.
    rewrite (bind_Ret _ _ _ _ _ _ _ (request_live _ _ _ _ Hc')).
    rewrite !emit_emits, emits_emits. eexists. split; [|reflexivity].
    now repeat constructor. }
  destruct (String.eqb_spec (switch_key (xmpp.element st)) ("iq" +:+ NsJabberClient)) as [E|_];
    [contradiction|].
  exists []. split; [constructor|]. now rewrite emits_nil.
Qed.

Lemma authenticate_loop_run r rest passed : ∀ fuel c conn w,
  Client.connection c = Some conn →
  xmpp.incoming conn = (xmpp.Elem <$> passed) ++ r :: rest →
  Forall (λ st, switch_key (xmpp.element st) ≠ "iq" +:+ NsJabberClient) passed →
  (∀ st, r = xmpp.Elem st → switch_key (xmpp.element st) = "iq" +:+ NsJabberClient) →
  (length passed < fuel)%nat →
  ∃ cur calls,
    Forall (λ e, is_call e = true) calls
    ∧ authenticate_loop fuel c w
      = Ret (verdict_of r) (Client.set_connection c (Some (xmpp.mkConn rest cur)))
            (emits calls w).
Proof.
  induction passed as [|st passed IH]; intros fuel c conn w Hc Hi Hp Hr Hf.
  - destruct fuel as [|fuel]; [cbn in Hf; lia|]. cbn [fmap list_fmap app] in Hi.
    cbn [authenticate_loop]. destruct r as [st|e].
    + rewrite (bind_Ret _ _ _ _ _ _ _ (Next_elem _ _ _ _ w Hc Hi)).
      cbv beta iota zeta. rewrite (Hr st eq_refl).
      rewrite key_iq_stream, key_iq_proceed, String.eqb_refl.
      cbn [verdict_of]. exists st, []. rewrite emits_nil.
      split; [constructor|]. now destruct (result_attr _).
    + rewrite (bind_Ret _ _ _ _ _ _ _ (Next_fail _ _ _ _ w Hc Hi)).
      exists (xmpp.current conn), []. rewrite emits_nil. split; [constructor|reflexivity].
  - destruct fuel as [|fuel]; [cbn in Hf; lia|]. cbn [fmap list_fmap app] in Hi.
    apply Forall_cons in Hp as [Hst Hp].
    destruct (authenticate_loop_pass_calls fuel c conn st _ w Hc Hi Hst) as (es & Hes & ->).
    destruct (IH fuel (Client.set_connection c (Some (xmpp.mkConn (_ ++ r :: rest) st)))
                 _ (emits es w) eq_refl eq_refl Hp Hr) as (cur & calls & Hcalls & E);
      [cbn in Hf; lia|].
    exists cur, (es ++ calls). split; [now apply Forall_app|].
    now rewrite E, emits_emits.
Qed.

(** X1. When the dial gives a session, [connect] opens the stream, lets
    [authenticate] write its requests and returns the verdict of the first
    read that is an [iq] element or a failure.  The dispatcher and the
    connect signal are started, in this order and after everything else,
    exactly when that verdict is nil; on an authentication failure or a
    read failure nothing is started.  The session is left at the read after
    the one that decided, so no stanza is lost between authentication and
    dispatch. *)
Theorem connect_starts_dispatcher_only_when_authenticated
    c w conn ds passed r rest :
  dials w = (Some conn, None) :: ds →
  xmpp.incoming conn = (xmpp.Elem <$> passed) ++ r :: rest →
  Forall (λ st, switch_key (xmpp.element st) ≠ "iq" +:+ NsJabberClient) passed →
  (∀ st, r = xmpp.Elem st → switch_key (xmpp.element st) = "iq" +:+ NsJabberClient) →
  ∃ cur calls,
    Forall (λ e, is_call e = true) calls
    ∧ connect c w
      = Ret (verdict_of r) (Client.set_connection c (Some (xmpp.mkConn rest cur)))
          (emits ([EvDial host; EvCall (xmpp.Stream (Client.Id c) host)] ++ calls
                  ++ match verdict_of r with
                     | None => [EvGo go_listen; EvGo (go_onConnect (Client.onConnect c))]
                     | Some _ => []
                     end)
                 (mkWorld ds (next_chan w) (trace w))).
Proof.
  intros Hd Hi Hp Hr.
  set (c1 := Client.set_connection c (Some conn)).
  set (w1 := emit (EvDial host) (mkWorld ds (next_chan w) (trace w))).
  assert (Hc1 : Client.connection c1 = Some conn) by reflexivity.
  destruct (authenticate_loop_run r rest passed (S (pending c1)) c1 conn
              (emit (EvCall (xmpp.Stream (Client.Id c1) host)) w1) Hc1 Hi Hp Hr)
    as (cur & calls & Hcalls & E).
  { unfold pending. rewrite Hc1, Hi, length_app, length_fmap. cbn. lia. }
  exists cur, calls. split; [exact Hcalls|].
  assert (Ha : authenticate c1 w1
               = Ret (verdict_of r) (Client.set_connection c (Some (xmpp.mkConn rest cur)))
                     (emits ([EvDial host; EvCall (xmpp.Stream (Client.Id c) host)] ++ calls)
                            (mkWorld ds (next_chan w) (trace w)))).
  { unfold authenticate. unfold bind at 1. unfold this.
    rewrite (bind_Ret _ _ _ _ _ _ _ (request_live _ _ _ w1 Hc1)), E.
    unfold w1. now rewrite !emit_emits, !emits_emits. }
  unfold connect. unfold bind at 1. unfold Dial. rewrite Hd. cbn [fmap option_fmap option_map].
  unfold bind at 1. unfold assign_connection. fold c1 w1.
  rewrite (bind_Ret _ _ _ _ _ _ _ Ha).
  destruct (verdict_of r) as [e|]; [unfold ret; now rewrite app_nil_r|].
  unfold go, bind, log, this, ret. cbn [Client.onConnect Client.set_connection].
  now rewrite !emit_emits, !emits_emits, <- !app_assoc.
Qed.

End ConnectFlow.

(** ** What authentication never does *)

Lemma set_connection_same c conn :
  Client.connection c = Some conn →
  Client.set_connection c
    (Some (xmpp.mkConn (xmpp.incoming conn) (xmpp.current conn))) = c.
Proof. destruct c, conn. cbn. now intros ->. Qed.

Section AuthenticationRuns.
Context `{XmppPackage}.

Lemma authenticate_loop_no_credentials : ∀ fuel c conn w,
  Client.connection c = Some conn →
  Forall (λ r, ∀ st, r = xmpp.Elem st →
               switch_key (xmpp.element st) = "stream" +:+ NsStream →
               xmpp.StartTLS (xmpp.st_features st) ≠ None)
         (xmpp.incoming conn) →
  ∃ es, trace (final_world (authenticate_loop fuel c w)) = trace w ++ es
        ∧ Forall (λ e, is_credentials e = false) es.
Proof.
  induction fuel as [|fuel IH]; intros c conn w Hc Hall.
  { exists []. split; [cbn; now rewrite app_nil_r|constructor]. }
  cbn [authenticate_loop]. unfold bind at 1, Next. rewrite Hc.
  destruct (xmpp.incoming conn) as [|[st|e] rest] eqn:Hi.
  { exists []. split; [cbn; now rewrite app_nil_r|constructor]. }
  2: { exists []. split; [cbn; now rewrite app_nil_r|constructor]. }
  apply Forall_cons in Hall as [Hst Hall].
  cbv beta iota zeta.
  set (c' := Client.set_connection c _).
  assert (Hc' : Client.connection c' = Some (xmpp.mkConn rest st)) by reflexivity.
  assert (Hnext : ∀ es0, Forall (λ e, is_credentials e = false) es0 →
            ∃ es, trace (final_world (authenticate_loop fuel c' (emits es0 w)))
                  = trace w ++ es
                  ∧ Forall (λ e, is_credentials e = false) es).
  { intros es0 Hes0.
    destruct (IH c' _ (emits es0 w) Hc' Hall) as (es & E & Hes).
    exists (es0 ++ es). split; [|now apply Forall_app].
    rewrite E. cbn. now rewrite app_assoc. }
  destruct (String.eqb_spec (switch_key (xmpp.element st)) ("stream" +:+ NsStream)) as [E|_].
  { unfold Features. rewrite (bind_Ret _ _ _ _ _ _ _ (decode_live _ _ _ w Hc')).
    cbn [xmpp.current]. specialize (Hst st eq_refl E).
    destruct (xmpp.StartTLS (xmpp.st_features st)); [|contradiction].
    rewrite (bind_Ret _ _ _ _ _ _ _ (request_live _ _ _ w Hc')), emit_emits.
    apply Hnext. now repeat constructor. }
  destruct (String.eqb (switch_key (xmpp.element st)) ("proceed" +:+ NsTLS)).
  { rewrite (bind_Ret _ _ _ _ _ _ _ (request_live _ _ _ w Hc')).
    unfold bind at 1. unfold this.
    rewrite (bind_Ret _ _ _ _ _ _ _ (request_live _ _ _ _ Hc')).
    rewrite !emit_emits, emits_emits. apply Hnext. now repeat constructor. }
  destruct (String.eqb (switch_key (xmpp.element st)) ("iq" +:+ NsJabberClient)).
  { exists []. split; [|constructor].
    destruct (result_attr _); cbn; now rewrite app_nil_r. }
  destruct (Hnext [] (Forall_nil_2 _)) as (es & E & Hes).
  rewrite emits_nil in E. eauto.
Qed.

(** X2. STARTTLS is mandatory whenever it is offered: on a session whose
    every stream-features element offers STARTTLS, [authenticate] never
    writes the credentials, however the session goes on and however
    [authenticate] ends. *)
Theorem authenticate_keeps_credentials_while_tls_is_offered c conn w :
  Client.connection c = Some conn →
  Forall (λ r, ∀ st, r = xmpp.Elem st →
               switch_key (xmpp.element st) = "stream" +:+ NsStream →
               xmpp.StartTLS (xmpp.st_features st) ≠ None)
         (xmpp.incoming conn) →
  ∃ es, trace (final_world (authenticate c w)) = trace w ++ es
        ∧ Forall (λ e, is_credentials e = false) es.
Proof.
  intros Hc Hall. unfold authenticate. unfold bind at 1. unfold this.
  rewrite (bind_Ret _ _ _ _ _ _ _ (request_live _ _ _ w Hc)).
  destruct (authenticate_loop_no_credentials (S (pending c)) c conn
              (emit (EvCall (xmpp.Stream (Client.Id c) host)) w) Hc Hall)
    as (es & E & Hes).
  exists (EvCall (xmpp.Stream (Client.Id c) host) :: es). split.
  - rewrite E. cbn. now rewrite <- app_assoc.
  - now constructor.
Qed.

(** X3. [authenticate] has no answer to a server that offers neither
    STARTTLS nor PLAIN: as long as the session gives only stream-features
    elements without STARTTLS and without PLAIN, or elements that none of
    the cases of the loop names, nothing is written after the opening of
    the stream, no error is returned, and [authenticate] is left waiting
    for the next read. *)
Theorem authenticate_waits_without_supported_mechanism c conn sts w :
  Client.connection c = Some conn →
  xmpp.incoming conn = xmpp.Elem <$> sts →
  Forall (λ st,
            ( switch_key (xmpp.element st) = "stream" +:+ NsStream
              ∧ xmpp.StartTLS (xmpp.st_features st) = None
              ∧ "PLAIN" ∉ xmpp.Mechanisms (xmpp.st_features st) )
            ∨ ( switch_key (xmpp.element st) ≠ "stream" +:+ NsStream
                ∧ switch_key (xmpp.element st) ≠ "proceed" +:+ NsTLS
                ∧ switch_key (xmpp.element st) ≠ "iq" +:+ NsJabberClient )) sts →
  ∃ cur, authenticate c w
         = Blocked (Client.set_connection c (Some (xmpp.mkConn [] cur)))
                   (emit (EvCall (xmpp.Stream (Client.Id c) host)) w).
Proof.
  intros Hc Hi Hall.
  assert (Hloop : ∀ sts fuel c conn w,
    Client.connection c = Some conn →
    xmpp.incoming conn = xmpp.Elem <$> sts →
    Forall (λ st,
              ( switch_key (xmpp.element st) = "stream" +:+ NsStream
                ∧ xmpp.StartTLS (xmpp.st_features st) = None
                ∧ "PLAIN" ∉ xmpp.Mechanisms (xmpp.st_features st) )
              ∨ ( switch_key (xmpp.element st) ≠ "stream" +:+ NsStream
                  ∧ switch_key (xmpp.element st) ≠ "proceed" +:+ NsTLS
                  ∧ switch_key (xmpp.element st) ≠ "iq" +:+ NsJabberClient )) sts →
    (length sts < fuel)%nat →
    ∃ cur, authenticate_loop fuel c w
           = Blocked (Client.set_connection c (Some (xmpp.mkConn [] cur))) w).
  { clear. induction sts as [|st sts IH]; intros fuel c conn w Hc Hi Hall Hf;
      (destruct fuel as [|fuel]; [cbn in Hf; lia|]); cbn [fmap list_fmap] in Hi.
    - exists (xmpp.current conn). cbn [authenticate_loop]. unfold bind, Next.
      rewrite Hc, Hi. rewrite <- Hi. now rewrite (set_connection_same _ _ Hc).
    - apply Forall_cons in Hall as [Hst Hall].
      cbn [authenticate_loop].
      rewrite (bind_Ret _ _ _ _ _ _ _ (Next_elem _ _ _ _ w Hc Hi)).
      cbv beta iota zeta.
      set (c' := Client.set_connection c _).
      assert (Hc' : Client.connection c' = Some (xmpp.mkConn (xmpp.Elem <$> sts) st))
        by reflexivity.
      destruct (IH fuel c' _ w Hc' eq_refl Hall) as [cur E]; [cbn in Hf; lia|].
      exists cur.
      destruct Hst as [(Hk & Htls & Hplain)|(Hs & Hp & Hq)].
      + rewrite Hk, String.eqb_refl.
        unfold Features. rewrite (bind_Ret _ _ _ _ _ _ _ (decode_live _ _ _ w Hc')).
        cbn [xmpp.current]. rewrite Htls.
        rewrite (bind_Ret _ _ _ _ _ _ _ (submit_plain_live _ _ _ w Hc')).
        destruct (filter (λ m, m = "PLAIN") (xmpp.Mechanisms (xmpp.st_features st)))
          as [|m ms] eqn:Hfilter.
        * cbn [length replicate]. now rewrite emits_nil, E.
        * exfalso. assert (Hm : m ∈ m :: ms) by (apply elem_of_cons; now left).
          rewrite <- Hfilter in Hm. apply list_elem_of_filter in Hm as [-> Hm].
          contradiction.
      + apply String.eqb_neq in Hs, Hp, Hq. now rewrite Hs, Hp, Hq, E. }
  unfold authenticate. unfold bind at 1. unfold this.
  rewrite (bind_Ret _ _ _ _ _ _ _ (request_live _ _ _ w Hc)).
  apply (Hloop sts _ c conn _ Hc Hi Hall).
  unfold pending. rewrite Hc, Hi, length_fmap. lia.
Qed.

End AuthenticationRuns.

(** ** The dispatch loop *)

Lemma keeps_send {V} (ev : chan → V → event) ch v : keeps_identity (send ev ch v).
Proof. intros c w. unfold send. now destruct ch. Qed.

Lemma keeps_panic {A} v : keeps_identity (panic (A := A) v).
Proof. now intros c w. Qed.

Section DispatchLoop.
Context `{XmppPackage}.

Lemma keeps_inner_attempts tries : ∀ err, keeps_identity (inner_attempts tries err).
Proof.
  induction tries as [|i tries IH]; intros err; [apply keeps_ret|].
  cbn [inner_attempts]. apply keeps_bind; [apply keeps_log|]. intros _.
  apply keeps_bind; [apply keeps_connect|]. intros [e|]; [apply keeps_ret|apply IH].
Qed.

Lemma keeps_outer_rounds ms : ∀ err, keeps_identity (outer_rounds ms err).
Proof.
  induction ms as [|m ms IH]; intros err; [apply keeps_ret|].
  cbn [outer_rounds]. apply keeps_bind; [apply keeps_inner_attempts|].
  intros [e [|]]; [apply keeps_ret|].
  apply keeps_bind; [apply keeps_log|]. intros _. apply IH.
Qed.

Lemma keeps_reconnect err : keeps_identity (reconnect err).
Proof.
  unfold reconnect. apply keeps_bind; [apply keeps_outer_rounds|].
  intros [e [|]]; [apply keeps_ret|apply keeps_panic].
Qed.

Lemma keeps_listen_round : keeps_identity listen_round.
Proof.
  unfold listen_round. apply keeps_bind; [apply keeps_Next|].
  intros [element [e|]]; [apply keeps_reconnect|]. cbv zeta.
  destruct (String.eqb _ _).
  { apply keeps_bind; [apply keeps_decode|]. intros query.
    destruct (String.eqb _ _);
      [apply keeps_bind; [apply keeps_this|intros c; apply keeps_send]|].
    destruct (String.eqb _ _);
      [apply keeps_bind; [apply keeps_this|intros c; apply keeps_send]|apply keeps_ret]. }
  destruct (String.eqb _ _); [apply keeps_ret|].
  destruct (String.eqb _ _); [|apply keeps_ret].
  destruct (_ && _); [apply keeps_ret|].
  apply keeps_bind; [apply keeps_decode|]. intros body.
  destruct (Nat.eqb _ _); [apply keeps_ret|].
  apply keeps_bind; [apply keeps_this|intros c; apply keeps_send].
Qed.

(** X6. The dispatch loop, with all the reconnections it goes through,
    replaces nothing of the client but its session: the credentials, the
    Id, the mention names and the four channels of the client are the same
    after any number of rounds, however the loop ends. *)
Theorem listen_replaces_only_the_session fuel c w :
  let c' := final_client (listen fuel c w) in
  Client.Username c' = Client.Username c
  ∧ Client.Password c' = Client.Password c
  ∧ Client.Resource c' = Client.Resource c
  ∧ Client.Id c' = Client.Id c
  ∧ Client.mentionNames c' = Client.mentionNames c
  ∧ Client.receivedUsers c' = Client.receivedUsers c
  ∧ Client.receivedRooms c' = Client.receivedRooms c
  ∧ Client.receivedMessage c' = Client.receivedMessage c
  ∧ Client.onConnect c' = Client.onConnect c.
Proof.
  assert (Hk : keeps_identity (listen fuel)).
  { induction fuel as [|fuel IH]; [now intros c0 w0|].
    cbn [listen]. apply keeps_bind; [apply keeps_listen_round|intros _; exact IH]. }
  intros c'. specialize (Hk c w). fold c' in Hk.
  repeat split.
  - exact (f_equal Client.Username Hk).
  - exact (f_equal Client.Password Hk).
  - exact (f_equal Client.Resource Hk).
  - exact (f_equal Client.Id Hk).
  - exact (f_equal Client.mentionNames Hk).
  - exact (f_equal Client.receivedUsers Hk).
  - exact (f_equal Client.receivedRooms Hk).
  - exact (f_equal Client.receivedMessage Hk).
  - exact (f_equal Client.onConnect Hk).
Qed.

(** X4. A round of the dispatch loop that reads an element consumes
    exactly this one read and produces at most one event, which is a send
    on a channel of the client: it never writes on the session, dials or
    sleeps.  An element that is neither an [iq] nor a [message] (a
    presence, anything unknown) produces nothing at all. *)
Theorem round_sends_at_most_one_event c conn st rest w :
  Client.connection c = Some conn →
  xmpp.incoming conn = xmpp.Elem st :: rest →
  let c' := Client.set_connection c (Some (xmpp.mkConn rest st)) in
  ∃ es,
    (length es ≤ 1)%nat
    ∧ Forall (λ e, is_send e = true) es
    ∧ final_world (listen_round c w) = emits es w
    ∧ final_client (listen_round c w) = c'
    ∧ ( switch_key (xmpp.element st) ≠ "iq" +:+ NsJabberClient →
        switch_key (xmpp.element st) ≠ "message" +:+ NsJabberClient →
        listen_round c w = Ret tt c' w ).
Proof.
  intros Hc Hi c'.
  assert (Hc' : Client.connection c' = Some (xmpp.mkConn rest st)) by reflexivity.
  assert (Hnone : ∀ o : outcome unit, (o = Ret tt c' w ∨ o = Blocked c' w) →
            (switch_key (xmpp.element st) ≠ "iq" +:+ NsJabberClient →
             switch_key (xmpp.element st) ≠ "message" +:+ NsJabberClient →
             o = Ret tt c' w) →
            ∃ es, (length es ≤ 1)%nat ∧ Forall (λ e, is_send e = true) es
                  ∧ final_world o = emits es w ∧ final_client o = c'
                  ∧ (switch_key (xmpp.element st) ≠ "iq" +:+ NsJabberClient →
                     switch_key (xmpp.element st) ≠ "message" +:+ NsJabberClient →
                     o = Ret tt c' w)).
  { intros o Ho Hlast. exists []. rewrite emits_nil.
    split; [cbn; lia|]. split; [constructor|].
    destruct Ho as [-> | ->]; (split; [reflexivity|split; [reflexivity|exact Hlast]]). }
  assert (Hone : ∀ (o : outcome unit) e, is_send e = true → o = Ret tt c' (emit e w) →
            (switch_key (xmpp.element st) = "iq" +:+ NsJabberClient
             ∨ switch_key (xmpp.element st) = "message" +:+ NsJabberClient) →
            ∃ es, (length es ≤ 1)%nat ∧ Forall (λ e, is_send e = true) es
                  ∧ final_world o = emits es w ∧ final_client o = c'
                  ∧ (switch_key (xmpp.element st) ≠ "iq" +:+ NsJabberClient →
                     switch_key (xmpp.element st) ≠ "message" +:+ NsJabberClient →
                     o = Ret tt c' w)).
  { intros o e He -> Hkey. exists [e].
    split; [cbn; lia|]. split; [now repeat constructor|].
    split; [reflexivity|]. split; [reflexivity|].
    intros Hq Hm. destruct Hkey; contradiction. }
  unfold listen_round.
  rewrite (bind_Ret _ _ _ _ _ _ _ (Next_elem _ _ _ _ w Hc Hi)).
  fold c'. cbv beta iota zeta.
  destruct (String.eqb_spec (switch_key (xmpp.element st)) ("iq" +:+ NsJabberClient))
    as [Hq|Hq].
  { unfold Query. rewrite (bind_Ret _ _ _ _ _ _ _ (decode_live _ _ _ w Hc')).
    cbn [xmpp.current].
    destruct (String.eqb _ NsDisco).
    { unfold bind, this, send. destruct (Client.receivedRooms c') as [ch|].
      - eapply Hone; [|reflexivity|now left]. reflexivity.
      - apply Hnone; [now right|]. intros Hn. contradiction. }
    destruct (String.eqb _ NsIqRoster).
    { unfold bind, this, send. destruct (Client.receivedUsers c') as [ch|].
      - eapply Hone; [|reflexivity|now left]. reflexivity.
      - apply Hnone; [now right|]. intros Hn. contradiction. }
    apply Hnone; [now left|reflexivity]. }
  destruct (String.eqb _ ("presence" +:+ NsJabberClient)).
  { apply Hnone; [now left|reflexivity]. }
  destruct (String.eqb_spec (switch_key (xmpp.element st)) ("message" +:+ NsJabberClient))
    as [Hm|Hm].
  2: { apply Hnone; [now left|reflexivity]. }
  destruct (_ && _).
  { apply Hnone; [now left|reflexivity]. }
  unfold Body. rewrite (bind_Ret _ _ _ _ _ _ _ (decode_live _ _ _ w Hc')).
  destruct (Nat.eqb _ _).
  { apply Hnone; [now left|reflexivity]. }
  unfold bind, this, send. destruct (Client.receivedMessage c') as [ch|].
  - eapply Hone; [|reflexivity|now right]. reflexivity.
  - apply Hnone; [now right|]. intros Hn Hn'. contradiction.
Qed.



End DispatchLoop.

(** ** The client that [NewClient] returns without error *)

Section LiveSession.
Context `{XmppPackage}.

Lemma authenticate_loop_live : ∀ fuel c w a c' w',
  is_Some (Client.connection c) →
  authenticate_loop fuel c w = Ret a c' w' → is_Some (Client.connection c').
Proof.
  induction fuel as [|fuel IH]; intros c w a c' w' [conn Hc]; [discriminate|].
  cbn [authenticate_loop]. unfold bind at 1, Next. rewrite Hc.
  destruct (xmpp.incoming conn) as [|[st|e] rest] eqn:Hi; [discriminate| |].
  2: { unfold ret. intros [= _ <- _]. now eexists. }
  cbv beta iota zeta.
  set (c1 := Client.set_connection c _).
  assert (Hc1 : Client.connection c1 = Some (xmpp.mkConn rest st)) by reflexivity.
  assert (Hl1 : is_Some (Client.connection c1)) by now eexists.
  destruct (String.eqb (switch_key (xmpp.element st)) ("stream" +:+ NsStream)).
  { unfold Features. rewrite (bind_Ret _ _ _ _ _ _ _ (decode_live _ _ _ w Hc1)).
    destruct (xmpp.StartTLS _).
    - rewrite (bind_Ret _ _ _ _ _ _ _ (request_live _ _ _ w Hc1)). now apply IH.
    - rewrite (bind_Ret _ _ _ _ _ _ _ (submit_plain_live _ _ _ w Hc1)). now apply IH. }
  destruct (String.eqb (switch_key (xmpp.element st)) ("proceed" +:+ NsTLS)).
  { rewrite (bind_Ret _ _ _ _ _ _ _ (request_live _ _ _ w Hc1)).
    unfold bind at 1. unfold this.
    rewrite (bind_Ret _ _ _ _ _ _ _ (request_live _ _ _ _ Hc1)). now apply IH. }
  destruct (String.eqb (switch_key (xmpp.element st)) ("iq" +:+ NsJabberClient)).
  { destruct (result_attr _); unfold ret; now intros [= _ <- _]. }
  now apply IH.
Qed.

Lemma connect_live c w c' w' :
  connect c w = Ret None c' w' → is_Some (Client.connection c').
Proof.
  unfold connect. unfold bind at 1, Dial.
  destruct (dials w) as [|[conn err] rest]; [discriminate|].
  unfold bind at 1, assign_connection.
  destruct err as [e|]; [discriminate|]. cbn [fmap option_fmap option_map].
  unfold bind at 1.
  destruct (authenticate _ _) as [[e|] c1 w1| | |] eqn:Ha; try discriminate.
  unfold go, bind, log, this, ret. intros [= <- _].
  revert Ha. unfold authenticate. unfold bind at 1. unfold this.
  unfold bind at 1. unfold request.
  destruct (Client.connection (Client.set_connection c conn)) as [conn1|] eqn:Hc1;
    [|discriminate].
  apply authenticate_loop_live. rewrite Hc1. now eexists.
Qed.

(** X7. A client that [NewClient] returns with a nil error has a session:
    the pointer returned is not nil, the Id is [user@chat.hipchat.com], and
    the operations of the facade do not dereference nil on it.  [Status]
    writes one presence from the Id; [Join] writes one room presence to
    [roomId/resource] from the Id; [Say] writes one message, on one of its
    two send paths, from [Id/name].  None of them reads the session or
    changes the client. *)
Theorem NewClient_without_error_gives_usable_client user pass resource w p c' w' :
  NewClient user pass resource w = Ret (p, None) c' w' →
  let id := user +:+ "@" +:+ host in
  p = Some c'
  ∧ Client.Id c' = id
  ∧ is_Some (Client.connection c')
  ∧ ∀ w1,
      ( ∀ s, Status s c' w1 = Ret tt c' (emit (EvCall (xmpp.Presence id s)) w1) )
      ∧ ( ∀ roomId nick,
            Join roomId nick c' w1
            = Ret tt c' (emit (EvCall (xmpp.MUCPresence (roomId +:+ "/" +:+ nick) id)) w1) )
      ∧ ( ∀ to name body,
            Say to name body c' w1
            = Ret tt c' (emit (EvCall (xmpp.MUCSend to (id +:+ "/" +:+ name) body)) w1)
            ∨ Say to name body c' w1
              = Ret tt c' (emit (EvCall (xmpp.Send to (id +:+ "/" +:+ name) body)) w1) ).
Proof.
  intros Hnew id.
  unfold NewClient in Hnew. cbn [make_chan] in Hnew. unfold bind at 1 in Hnew.
  match type of Hnew with context [connect ?c0 ?w0] =>
    pose proof (keeps_connect c0 w0) as Hk;
    pose proof (connect_live c0 w0) as Hlive;
    destruct (connect c0 w0) as [err c1 w1'| | |]; try discriminate
  end.
  unfold bind, this, ret in Hnew. injection Hnew as <- -> -> ->.
  specialize (Hlive c' w' eq_refl). destruct Hlive as [conn Hc].
  assert (Hid : Client.Id c' = id) by exact (f_equal Client.Id Hk).
  split; [reflexivity|]. split; [exact Hid|]. split; [exists conn; exact Hc|].
  intros w1. split; [|split].
  - intros s. unfold Status, bind, this. now rewrite (request_live _ _ _ _ Hc), Hid.
  - intros roomId nick. unfold Join, bind, this.
    now rewrite (request_live _ _ _ _ Hc), Hid.
  - intros to name body. unfold Say, bind, this. rewrite Hid.
    destruct (strings.Contains to conf); rewrite (request_live _ _ _ _ Hc); auto.
Qed.

End LiveSession.

(** X8. On a client with a session, [KeepAlive] writes one idle-prevention
    frame for every tick it receives and nothing else: it reads nothing from
    the session and changes nothing of the client, and it does not stop by
    itself. *)
Theorem KeepAlive_writes_one_frame_per_tick ticks : ∀ c conn w,
  Client.connection c = Some conn →
  KeepAlive ticks c w
  = OutOfFuel c (emits (replicate ticks (EvCall xmpp.KeepAlive)) w).
Proof.
  induction ticks as [|ticks IH]; intros c conn w Hc.
  - cbn. unfold out_of_fuel. now rewrite emits_nil.
  - cbn [KeepAlive]. rewrite (bind_Ret _ _ _ _ _ _ _ (request_live _ _ _ w Hc)).
    rewrite (IH _ _ _ Hc), emit_emits, emits_emits. reflexivity.
Qed.

(** ** The schedule of the reconnect supervisor *)

Lemma appends_bind P {A B} (m : M A) (k : A → M B) :
  appends P m → (∀ a, appends P (k a)) → appends P (bind m k).
Proof.
  intros Hm Hk c w. unfold bind. destruct (Hm c w) as (es & E & Hes).
  destruct (m c w) as [a c1 w1| | |]; try (exists es; now split).
  destruct (Hk a c1 w1) as (es' & E' & Hes').
  exists (es ++ es'). split; [|now apply Forall_app].
  rewrite E'. cbn in E. now rewrite E, app_assoc.
Qed.

Lemma appends_nothing P {A} (m : M A) :
  (∀ c w, final_world (m c w) = w) → appends P m.
Proof.
  intros Hm c w. exists []. rewrite Hm, app_nil_r. split; [reflexivity|constructor].
Qed.

Lemma appends_log P e : P e = true → appends P (log e).
Proof. intros He c w. exists [e]. split; [reflexivity|now repeat constructor]. Qed.

Lemma appends_request P r : P (EvCall r) = true → appends P (request r).
Proof.
  intros He c w. unfold request. destruct (Client.connection c).
  - exists [EvCall r]. split; [reflexivity|now repeat constructor].
  - exists []. cbn. rewrite app_nil_r. split; [reflexivity|constructor].
Qed.

Lemma appends_Next P : appends P Next.
Proof.
  apply appends_nothing. intros c w. unfold Next.
  destruct (Client.connection c) as [conn|]; [|reflexivity].
  now destruct (xmpp.incoming conn) as [|[st|e] rest].
Qed.

Lemma appends_decode P {A} (f : xmpp.stanza → A) : appends P (decode f).
Proof.
  apply appends_nothing. intros c w. unfold decode.
  now destruct (Client.connection c).
Qed.

Lemma appends_submit_plain P mechanisms :
  (∀ r, P (EvCall r) = true) → appends P (submit_plain mechanisms).
Proof.
  intros HP. induction mechanisms as [|m rest IH]; [now apply appends_nothing|].
  cbn [submit_plain]. apply appends_bind; [|intros _; exact IH].
  destruct (String.eqb m "PLAIN"); [|now apply appends_nothing].
  apply appends_bind; [now apply appends_nothing|]. intros c. now apply appends_request.
Qed.

Lemma sleeps_quiet es : Forall (λ e, is_quiet e = true) es → sleeps es = [].
Proof.
  induction 1 as [|e es He _ IH]; [reflexivity|].
  unfold sleeps in *. cbn [omap list_omap]. rewrite IH. now destruct e.
Qed.

Lemma dialed_quiet es : Forall (λ e, is_quiet e = true) es → dialed es = [].
Proof.
  induction 1 as [|e es He _ IH]; [reflexivity|].
  unfold dialed in *. cbn [omap list_omap]. rewrite IH. now destruct e.
Qed.

Lemma sleeps_app es es' : sleeps (es ++ es') = sleeps es ++ sleeps es'.
Proof. apply omap_app. Qed.

Lemma dialed_app es es' : dialed (es ++ es') = dialed es ++ dialed es'.
Proof. apply omap_app. Qed.

Section Schedule.
Context `{XmppPackage}.

Lemma appends_authenticate_loop P fuel :
  (∀ r, P (EvCall r) = true) → appends P (authenticate_loop fuel).
Proof.
  intros HP. induction fuel as [|fuel IH]; [now apply appends_nothing|].
  cbn [authenticate_loop]. apply appends_bind; [apply appends_Next|].
  intros [element [e|]]; [now apply appends_nothing|]. cbv zeta.
  destruct (String.eqb _ _).
  { apply appends_bind; [apply appends_decode|]. intros features.
    apply appends_bind; [|intros _; exact IH].
    destruct (xmpp.StartTLS features);
      [now apply appends_request|now apply appends_submit_plain]. }
  destruct (String.eqb _ _).
  { apply appends_bind; [now apply appends_request|]. intros _.
    apply appends_bind; [now apply appends_nothing|]. intros c.
    apply appends_bind; [now apply appends_request|]. intros _. exact IH. }
  destruct (String.eqb _ _); [|exact IH].
  destruct (result_attr _); now apply appends_nothing.
Qed.

(** Every [connect] dials once, first, and neither dials again nor
    sleeps. *)
Lemma connect_dials_once c w :
  ∃ tl, trace (final_world (connect c w)) = trace w ++ EvDial host :: tl
        ∧ Forall (λ e, is_quiet e = true) tl.
Proof.
  unfold connect.
  match goal with |- context [bind (Dial host) ?k c w] =>
    assert (Hk : ∀ a, appends is_quiet (k a))
  end.
  { intros [connection err].
    apply appends_bind; [now apply appends_nothing|]. intros _.
    destruct err; [now apply appends_nothing|].
    apply appends_bind.
    - unfold authenticate. apply appends_bind; [now apply appends_nothing|].
      intros c0. apply appends_bind; [now apply appends_request|]. intros _.
      now apply appends_authenticate_loop.
    - intros [e|]; [now apply appends_nothing|].
      apply appends_bind; [now apply appends_log|]. intros _.
      apply appends_bind; [now apply appends_nothing|]. intros c0.
      apply appends_bind; [now apply appends_log|]. intros _.
      now apply appends_nothing. }
  unfold bind at 1, Dial.
  destruct (dials w) as [|[conn err] rest].
  { exists []. split; [reflexivity|constructor]. }
  destruct (Hk (conn, Transport <$> err) c
               (emit (EvDial host) (mkWorld rest (next_chan w) (trace w))))
    as (tl & E & Htl).
  exists tl. split; [|exact Htl]. rewrite E. cbn. now rewrite <- app_assoc.
Qed.

Lemma inner_attempts_trace tries : ∀ err c w,
  ∃ es k,
    trace (final_world (inner_attempts tries err c w)) = trace w ++ es
    ∧ sleeps es = (λ i, i * time.Second)%Z <$> take k tries
    ∧ dialed es = replicate k host
    ∧ (k ≤ length tries)%nat
    ∧ ∀ err' c' w', inner_attempts tries err c w = Ret (err', false) c' w' →
                    k = length tries.
Proof.
  induction tries as [|i tries IH]; intros err c w.
  { exists [], O. cbn. rewrite app_nil_r. repeat split; auto. }
  rewrite inner_attempts_step.
  set (w1 := emit (EvSleep (i * time.Second)%Z) w).
  destruct (connect_dials_once c w1) as (tl & E & Htl).
  assert (Hone : trace w ++ EvSleep (i * time.Second)%Z :: EvDial host :: tl
                 = trace w1 ++ EvDial host :: tl).
  { unfold w1. cbn. now rewrite <- app_assoc. }
  assert (Hs : sleeps (EvSleep (i * time.Second)%Z :: EvDial host :: tl)
               = [(i * time.Second)%Z]).
  { change (sleeps (EvSleep (i * time.Second)%Z :: EvDial host :: tl))
      with ((i * time.Second)%Z :: sleeps tl). now rewrite sleeps_quiet. }
  assert (Hd : dialed (EvSleep (i * time.Second)%Z :: EvDial host :: tl) = [host]).
  { change (dialed (EvSleep (i * time.Second)%Z :: EvDial host :: tl))
      with (host :: dialed tl). now rewrite dialed_quiet. }
  destruct (connect c w1) as [[e|] c1 w2| | |]; cbn [final_world] in E.
  2: { destruct (IH None c1 w2) as (es & k & E' & Hs' & Hd' & Hk & Hfull).
       exists ((EvSleep (i * time.Second)%Z :: EvDial host :: tl) ++ es), (S k).
       split; [rewrite E', E, <- Hone; now rewrite <- app_assoc|].
       split; [rewrite sleeps_app, Hs, Hs'; reflexivity|].
       split; [rewrite dialed_app, Hd, Hd'; reflexivity|].
       split; [cbn; lia|].
       intros err' c' w' Hret. cbn. f_equal. eapply Hfull, Hret. }
  all: exists (EvSleep (i * time.Second)%Z :: EvDial host :: tl), 1%nat;
    (split; [cbn [final_world]; now rewrite E, Hone|]);
    (split; [now rewrite Hs|]); (split; [now rewrite Hd|]);
    (split; [cbn; lia|]); intros err' c' w' Hret; discriminate Hret.
Qed.

Lemma outer_rounds_trace ms : ∀ err c w,
  ∃ es,
    trace (final_world (outer_rounds ms err c w)) = trace w ++ es
    ∧ sleeps es `prefix_of` backoff_of ms
    ∧ (length (dialed es) ≤ 10 * length ms)%nat
    ∧ Forall (λ h, h = host) (dialed es).
Proof.
  induction ms as [|m ms IH]; intros err c w.
  { exists []. cbn. rewrite app_nil_r. repeat split; [now exists []|lia|constructor]. }
  cbn [outer_rounds]. unfold bind at 1.
  destruct (inner_attempts_trace (seqZ 1 10) err c w)
    as (es1 & k & E1 & Hs1 & Hd1 & Hk & Hfull).
  assert (Hb : backoff_of (m :: ms)
               = ((λ i, i * time.Second)%Z <$> seqZ 1 10)
                 ++ [(m * time.Minute)%Z] ++ backoff_of ms).
  { unfold backoff_of. cbn [fmap list_fmap mjoin list_join]. now rewrite <- app_assoc. }
  assert (Hten : length (seqZ 1 10) = 10%nat) by reflexivity.
  rewrite Hten in Hk.
  assert (Hshort : sleeps es1 `prefix_of` backoff_of (m :: ms)
                   ∧ (length (dialed es1) ≤ 10 * length (m :: ms))%nat
                   ∧ Forall (λ h, h = host) (dialed es1)).
  { split; [|split].
    - rewrite Hs1, Hb. rewrite <- (take_drop k (seqZ 1 10)) at 2.
      rewrite fmap_app, <- app_assoc. now eexists.
    - rewrite Hd1, length_replicate. cbn [length]. lia.
    - rewrite Hd1. now apply Forall_replicate. }
  destruct (inner_attempts (seqZ 1 10) err c w) as [[e1 left] c1 w1| | |] eqn:Hinner;
    try (exists es1; split; [exact E1|exact Hshort]).
  destruct left; [exists es1; split; [exact E1|exact Hshort]|].
  specialize (Hfull _ _ _ eq_refl). subst k.
  rewrite firstn_all in Hs1. rewrite Hten in Hd1.
  unfold bind at 1, Sleep, log.
  destruct (IH e1 c1 (emit (EvSleep (m * time.Minute)%Z) w1)) as (es2 & E2 & Hs2 & Hd2 & Hh2).
  exists (es1 ++ EvSleep (m * time.Minute)%Z :: es2). split; [|split; [|split]].
  - rewrite E2. cbn [final_world] in E1. cbn. rewrite E1. now rewrite <- !app_assoc.
  - rewrite sleeps_app, Hs1, Hb.
    change (sleeps (EvSleep (m * time.Minute)%Z :: es2))
      with ((m * time.Minute)%Z :: sleeps es2).
    apply prefix_app. now apply (prefix_app [(m * time.Minute)%Z]).
  - rewrite dialed_app, length_app, Hd1, length_replicate.
    change (dialed (EvSleep (m * time.Minute)%Z :: es2)) with (dialed es2).
    cbn [length]. lia.
  - rewrite dialed_app. apply Forall_app. split; [|exact Hh2].
    rewrite Hd1. now apply Forall_replicate.
Qed.

(** X9. Whatever the network answers, the reconnect block is bounded and
    keeps to its schedule: the sleeps it has made when it ends (by the
    [goto], by the panic, or inside a [connect] that does not return) are
    an initial part of one to ten seconds followed by [m] minutes, for [m]
    from 0 to 4; it dials at most 50 times, and only chat.hipchat.com. *)
Theorem reconnect_keeps_to_the_backoff_schedule err c w :
  ∃ es,
    trace (final_world (reconnect err c w)) = trace w ++ es
    ∧ sleeps es `prefix_of` backoff_schedule
    ∧ (length (dialed es) ≤ 50)%nat
    ∧ Forall (λ h, h = "chat.hipchat.com") (dialed es).
Proof.
  destruct (outer_rounds_trace (seqZ 0 5) err c w) as (es & E & Hs & Hd & Hh).
  exists es. split; [|split; [exact Hs|split; [exact Hd|exact Hh]]].
  unfold reconnect, bind.
  destruct (outer_rounds (seqZ 0 5) err c w) as [[e left] c1 w1| | |]; try exact E.
  now destruct left.
Qed.

End Schedule.

(** ** More examples *)

(** X1 at work: bob connects on the accepting session; the dispatcher and
    the connect signal are started. *)
Lemma connect_starts_dispatcher_witness :
  ∃ cur calls,
    Forall (λ e, is_call e = true) calls
    ∧ connect (H := xmpp_standard) (bob []) (world_of [(Some accepting_session, None)])
      = Ret None (Client.set_connection (bob []) (Some (xmpp.mkConn [] cur)))
          (emits ([EvDial host; EvCall (xmpp.Stream "bob@chat.hipchat.com" host)] ++ calls
                  ++ [EvGo go_listen; EvGo (go_onConnect (Some (Chan 3)))])
                 (mkWorld [] 4 [])).
Proof.
  refine (connect_starts_dispatcher_only_when_authenticated (H := xmpp_standard)
            (bob []) (world_of [(Some accepting_session, None)]) accepting_session []
            [features_stanza (Some tt) ["PLAIN"]; proceed_stanza;
             features_stanza None ["X-HIPCHAT"; "PLAIN"];
             bare_stanza "urn:ietf:params:xml:ns:xmpp-sasl" "success" []]
            (xmpp.Elem (iq_stanza [attribute "id" "bind"; attribute "type" "result"]))
            [] eq_refl eq_refl _ _).
  - repeat (apply Forall_cons_2; [vm_compute; discriminate|]). apply Forall_nil_2.
  - intros st [= <-]. reflexivity.
Defined.

(** X2 at work: the server offers STARTTLS with PLAIN and then proceeds;
    no credentials are written. *)
Lemma authenticate_keeps_credentials_witness :
  ∃ es,
    trace (final_world
             (authenticate (H := xmpp_standard)
                (bob [xmpp.Elem (features_stanza (Some tt) ["PLAIN"]);
                      xmpp.Elem proceed_stanza]) (world_of [])))
    = [] ++ es
    ∧ Forall (λ e, is_credentials e = false) es.
Proof.
  refine (authenticate_keeps_credentials_while_tls_is_offered (H := xmpp_standard)
            (bob [xmpp.Elem (features_stanza (Some tt) ["PLAIN"]);
                  xmpp.Elem proceed_stanza])
            (session [xmpp.Elem (features_stanza (Some tt) ["PLAIN"]);
                      xmpp.Elem proceed_stanza])
            (world_of []) eq_refl _).
  apply Forall_cons_2; [intros st [= <-] _; discriminate|].
  apply Forall_cons_2; [intros st [= <-] Hk; vm_compute in Hk; discriminate Hk|].
  apply Forall_nil_2.
Defined.

(** X3 at work: the server offers DIGEST-MD5 only; bob waits. *)
Lemma authenticate_waits_witness :
  ∃ cur,
    authenticate (H := xmpp_standard)
      (bob [xmpp.Elem (features_stanza None ["DIGEST-MD5"])]) (world_of [])
    = Blocked (Client.set_connection (bob []) (Some (xmpp.mkConn [] cur)))
              (emit (EvCall (xmpp.Stream "bob@chat.hipchat.com" host)) (world_of [])).
Proof.
  refine (authenticate_waits_without_supported_mechanism (H := xmpp_standard)
            (bob [xmpp.Elem (features_stanza None ["DIGEST-MD5"])])
            (session [xmpp.Elem (features_stanza None ["DIGEST-MD5"])])
            [features_stanza None ["DIGEST-MD5"]] (world_of []) eq_refl eq_refl _).
  apply Forall_cons_2; [|apply Forall_nil_2].
  left. split; [reflexivity|]. split; [reflexivity|].
  intros Hin. apply elem_of_cons in Hin as [Heq|Hin]; [discriminate Heq|].
  now apply elem_of_nil in Hin.
Defined.

(** X4 at work: a presence produces nothing. *)
Lemma round_sends_at_most_one_event_witness :
  let st := bare_stanza "jabber:client" "presence" [] in
  listen_round (H := xmpp_standard) (bob [xmpp.Elem st]) (world_of [])
  = Ret tt (Client.set_connection (bob []) (Some (xmpp.mkConn [] st))) (world_of []).
Proof.
  intros st.
  destruct (round_sends_at_most_one_event (H := xmpp_standard) (bob [xmpp.Elem st])
              (session [xmpp.Elem st]) st [] (world_of []) eq_refl eq_refl)
    as (es & _ & _ & _ & _ & Hnothing).
  apply Hnothing; vm_compute; discriminate.
Defined.


(** X7 at work: bob is made on the accepting session and sets his status. *)
Lemma NewClient_without_error_witness :
  let made := NewClient (H := xmpp_standard) "bob" "pw" "desk"
                (mkWorld [(Some accepting_session, None)] 0 []) in
  made = Ret (Some (final_client made), None) (final_client made) (final_world made)
  ∧ Status "chat" (final_client made) (final_world made)
    = Ret tt (final_client made)
          (emit (EvCall (xmpp.Presence "bob@chat.hipchat.com" "chat")) (final_world made)).
Proof.
  intros made.
  assert (Hmade : made = Ret (Some (final_client made), None) (final_client made)
                             (final_world made)) by (vm_compute; reflexivity).
  split; [exact Hmade|].
  exact (proj1 (proj2 (proj2 (proj2
           (NewClient_without_error_gives_usable_client (H := xmpp_standard)
              "bob" "pw" "desk" (mkWorld [(Some accepting_session, None)] 0 [])
              _ _ _ Hmade))) (final_world made)) "chat").
Defined.

(** X8 at work: three ticks, three frames. *)
Lemma KeepAlive_witness :
  KeepAlive 3 (bob []) (world_of [])
  = OutOfFuel (bob [])
      (emits [EvCall xmpp.KeepAlive; EvCall xmpp.KeepAlive; EvCall xmpp.KeepAlive]
             (world_of [])).
Proof. exact (KeepAlive_writes_one_frame_per_tick 3 (bob []) (session []) (world_of []) eq_refl). Defined.
